(** * YouTube metadata hydrator for Plex: a shallow embedding

    The development follows [youtube_hydrator.py].  Python [str] values are
    Rocq strings, one [ascii] per character (code points below 256); a
    [dict] is a [gmap]; [None] is [option]'s [None]; an exception that a
    handler of the program catches is an explicit failure value.  Console
    output and the progress bar are not part of the model.  *)

From Stdlib Require Import ZArith Ascii String List Bool Lia.
From stdpp Require Import base option list strings gmap fin_maps.

(** ** Characters and strings *)

Module Str.

Definition chr (n : nat) : ascii := ascii_of_nat n.

Definition code (c : ascii) : nat := nat_of_ascii c.

Definition in_range (lo hi : nat) (c : ascii) : bool :=
  (lo <=? code c) && (code c <=? hi).

(** [str.startswith] *)
Fixpoint startswith (p s : string) : bool :=
  match p, s with
  | EmptyString, _ => true
  | String a p', String b s' => if Ascii.eqb a b then startswith p' s' else false
  | String _ _, EmptyString => false
  end.

(** [s[n:]] *)
Fixpoint drop (n : nat) (s : string) : string :=
  match n, s with
  | O, _ => s
  | S n', String _ s' => drop n' s'
  | S _, EmptyString => EmptyString
  end.

(** [s[:n]] *)
Fixpoint take (n : nat) (s : string) : string :=
  match n, s with
  | S n', String a s' => String a (take n' s')
  | _, _ => EmptyString
  end.

(** [str.endswith] with a one-character suffix. *)
Fixpoint endswith_char (c : ascii) (s : string) : bool :=
  match s with
  | EmptyString => false
  | String a EmptyString => Ascii.eqb a c
  | String _ s' => endswith_char c s'
  end.

(** [s[:-1]] *)
Fixpoint drop_last (s : string) : string :=
  match s with
  | EmptyString => EmptyString
  | String _ EmptyString => EmptyString
  | String a s' => String a (drop_last s')
  end.

(** [str.replace(old, new)] for a one-character [old]. *)
Fixpoint replace (old : ascii) (new : string) (s : string) : string :=
  match s with
  | EmptyString => EmptyString
  | String a s' =>
      if Ascii.eqb a old then new +:+ replace old new s'
      else String a (replace old new s')
  end.

(** [", ".join(l)] and friends. *)
Fixpoint join (sep : string) (l : list string) : string :=
  match l with
  | [] => EmptyString
  | [x] => x
  | x :: l' => x +:+ sep +:+ join sep l'
  end.

End Str.

(** ** Log records

    Only the level and the message of a [logging] call are kept. *)

Inductive level := DEBUG | INFO | WARNING | ERROR.

Record log_record := Log { log_level : level; log_message : string }.

(** ** IdentifierExtractor: [extract_youtube_id] *)

(** [os.path.basename] of [posixpath]: what follows the last slash. *)
Fixpoint basename_from (acc : string) (s : string) : string :=
  match s with
  | EmptyString => acc
  | String a s' =>
      if Ascii.eqb a "/"%char then basename_from s' s' else basename_from acc s'
  end.

Definition basename (p : string) : string := basename_from p p.

(** The character class [[a-zA-Z0-9_-]]. *)
Definition id_char (c : ascii) : bool :=
  Str.in_range 97 122 c || Str.in_range 65 90 c || Str.in_range 48 57 c
  || Ascii.eqb c "_"%char || Ascii.eqb c "-"%char.

(** [n] characters of the class at the head of [s]: the captured group and
    what follows it. *)
Fixpoint id_chars (n : nat) (s : string) : option (string * string) :=
  match n with
  | O => Some (EmptyString, s)
  | S n' =>
      match s with
      | String a s' =>
          if id_char a then
            match id_chars n' s' with
            | Some (t, r) => Some (String a t, r)
            | None => None
            end
          else None
      | EmptyString => None
      end
  end.

(** A pattern [opening ([a-zA-Z0-9_-]{11}) closing], both delimiters
    literal text. *)
Record pattern := Pattern { opening : string; closing : string }.

Definition patterns : list pattern :=
  [ Pattern "[" "]";       (* [video_id] *)
    Pattern "(" ")";       (* (video_id) *)
    Pattern "_" ".mp4";    (* _video_id.mp4 *)
    Pattern "_" ".mkv";    (* _video_id.mkv *)
    Pattern "_" ".avi" ].  (* _video_id.avi *)

(** The pattern matched at the very start of [s]; the result is group 1. *)
Definition match_here (p : pattern) (s : string) : option string :=
  if Str.startswith (opening p) s then
    match id_chars 11 (Str.drop (String.length (opening p)) s) with
    | Some (t, r) => if Str.startswith (closing p) r then Some t else None
    | None => None
    end
  else None.

(** [re.search(pattern, s)]: the match at the leftmost position that has one. *)
Fixpoint re_search (p : pattern) (s : string) : option string :=
  match match_here p s with
  | Some t => Some t
  | None =>
      match s with
      | EmptyString => None
      | String _ s' => re_search p s'
      end
  end.

(** The [for pattern in patterns] loop. *)
Fixpoint first_match (ps : list pattern) (filename : string) : option string :=
  match ps with
  | [] => None
  | p :: ps' =>
      match re_search p filename with
      | Some video_id => Some video_id
      | None => first_match ps' filename
      end
  end.

(** [file_path] is [None] when the attribute holds Python's [None]. The
    result comes with the log records the call emits. *)
Definition extract_youtube_id (file_path : option string)
  : option string * list log_record :=
  match file_path with
  | None => (None, [])
  | Some EmptyString => (None, [])
  | Some path =>
      let filename := basename path in
      match first_match patterns filename with
      | Some video_id =>
          (Some video_id,
           [Log DEBUG ("Extracted YouTube ID '" +:+ video_id +:+ "' from: " +:+ filename)])
      | None =>
          (None, [Log WARNING ("No YouTube ID found in: " +:+ filename)])
      end
  end.

(** ** TitleComposer: [sanitize_filename] and [create_new_title] *)

(** The [replacements] dict, in insertion order. *)
Definition replacements : list (ascii * string) :=
  [ ("/"%char, "-");
    ("\"%char, "-");
    (":"%char, " -");
    ("*"%char, EmptyString);
    ("?"%char, EmptyString);
    (Str.chr 34, "'");
    ("<"%char, "(");
    (">"%char, ")");
    ("|"%char, "-");
    (Str.chr 10, " ");
    (Str.chr 13, " ");
    (Str.chr 9, " ") ].

(** What [\s] and [str.strip] take for whitespace, among the characters
    below 256. *)
Definition is_space (c : ascii) : bool :=
  Str.in_range 9 13 c || Str.in_range 28 32 c
  || (Str.code c =? 133) || (Str.code c =? 160).

(** [re.sub(r'\s+', ' ', text)]; [in_run] says the previous character was
    whitespace. *)
Fixpoint collapse_spaces (in_run : bool) (text : string) : string :=
  match text with
  | EmptyString => EmptyString
  | String a text' =>
      if is_space a then
        if in_run then collapse_spaces true text'
        else String " "%char (collapse_spaces true text')
      else String a (collapse_spaces false text')
  end.

Fixpoint lstrip (text : string) : string :=
  match text with
  | EmptyString => EmptyString
  | String a text' => if is_space a then lstrip text' else text
  end.

Fixpoint rstrip (text : string) : string :=
  match text with
  | EmptyString => EmptyString
  | String a text' =>
      match rstrip text' with
      | EmptyString => if is_space a then EmptyString else String a EmptyString
      | r => String a r
      end
  end.

Definition strip (text : string) : string := rstrip (lstrip text).

Definition sanitize_filename (text : string) : string :=
  let text := fold_left (fun t r => Str.replace (fst r) (snd r) t) replacements text in
  let text := strip (collapse_spaces false text) in
  if (200 <? String.length text) then Str.take 197 text +:+ "..." else text.

Definition create_new_title (channel_name video_title : string) : string :=
  let channel_clean := sanitize_filename channel_name in
  let title_clean := sanitize_filename video_title in
  channel_clean +:+ " - " +:+ title_clean.

(** ** Dates

    [datetime.date] and [datetime.datetime]; [utcoffset] is the offset of an
    aware value in seconds east of UTC, [None] for a naive one. *)

Record date := Date { year : Z; month : Z; day : Z }.

Record datetime := Datetime {
  dt_date : date;            (* [dt.date()] *)
  hour : Z;
  minute : Z;
  second : Z;
  microsecond : Z;
  utcoffset : option Z
}.

Global Instance date_eq_dec : EqDecision date.
Proof. solve_decision. Defined.

Global Instance datetime_eq_dec : EqDecision datetime.
Proof. solve_decision. Defined.

(** [d1 != d2] on dates. *)
Definition date_ne (d1 d2 : date) : bool := negb (bool_decide (d1 = d2)).

(** What [editOriginallyAvailable(d)] leaves in [originallyAvailableAt]. *)
Definition midnight (d : date) : datetime := Datetime d 0 0 0 0 None.

(** *** The proleptic Gregorian calendar, for the UTC reading of a timestamp *)

Definition days_from_civil (d : date) : Z :=
  let y := if (month d <=? 2)%Z then (year d - 1)%Z else year d in
  let era := (y / 400)%Z in
  let yoe := (y - era * 400)%Z in
  let mp := ((month d + 9) mod 12)%Z in
  let doy := ((153 * mp + 2) / 5 + day d - 1)%Z in
  let doe := (yoe * 365 + yoe / 4 - yoe / 100 + doy)%Z in
  (era * 146097 + doe - 719468)%Z.

Definition civil_from_days (z : Z) : date :=
  let z := (z + 719468)%Z in
  let era := (z / 146097)%Z in
  let doe := (z - era * 146097)%Z in
  let yoe := ((doe - doe / 1460 + doe / 36524 - doe / 146096) / 365)%Z in
  let doy := (doe - (365 * yoe + yoe / 4 - yoe / 100))%Z in
  let mp := ((5 * doy + 2) / 153)%Z in
  let d := (doy - (153 * mp + 2) / 5 + 1)%Z in
  let m := if (mp <? 10)%Z then (mp + 3)%Z else (mp - 9)%Z in
  let y := (yoe + era * 400)%Z in
  Date (if (m <=? 2)%Z then (y + 1)%Z else y) m d.

(** The date component of [dt.astimezone(timezone.utc)] for an aware [dt];
    a naive value has no offset to remove. *)
Definition utc_date (dt : datetime) : date :=
  match utcoffset dt with
  | None => dt_date dt
  | Some off =>
      let secs := (days_from_civil (dt_date dt) * 86400
                   + hour dt * 3600 + minute dt * 60 + second dt - off)%Z in
      civil_from_days (secs / 86400)
  end.

(** *** A reading of [datetime.fromisoformat]

    The library function is a parameter of the development.  This is its
    value on the timestamps [YYYY-MM-DD], [YYYY-MM-DDxHH:MM:SS] and
    [YYYY-MM-DDxHH:MM:SS+HH:MM] (any separator [x], either sign, an optional
    fraction of three or six digits after the seconds), which every version
    of the library reads alike; [None] stands for its [ValueError]. *)

Module Iso.

Definition digit (c : ascii) : option Z :=
  if Str.in_range 48 57 c then Some (Z.of_nat (Str.code c) - 48)%Z else None.

(** Exactly [n] decimal digits at the head of [s]. *)
Fixpoint number (n : nat) (acc : Z) (s : string) : option (Z * string) :=
  match n with
  | O => Some (acc, s)
  | S n' =>
      match s with
      | String a s' =>
          match digit a with
          | Some d => number n' (acc * 10 + d)%Z s'
          | None => None
          end
      | EmptyString => None
      end
  end.

Definition expect (c : ascii) (s : string) : option string :=
  match s with
  | String a s' => if Ascii.eqb a c then Some s' else None
  | EmptyString => None
  end.

Definition leap (y : Z) : bool :=
  ((y mod 4 =? 0) && (negb (y mod 100 =? 0) || (y mod 400 =? 0)))%Z.

Definition days_in_month (y m : Z) : Z :=
  if (m =? 2)%Z then (if leap y then 29 else 28)%Z
  else if ((m =? 4) || (m =? 6) || (m =? 9) || (m =? 11))%Z then 30%Z
  else 31%Z.

Definition parse_date (s : string) : option (date * string) :=
  '(y, s) ← number 4 0 s;
  s ← expect "-"%char s;
  '(m, s) ← number 2 0 s;
  s ← expect "-"%char s;
  '(d, s) ← number 2 0 s;
  if ((1 <=? y) && (1 <=? m) && (m <=? 12) && (1 <=? d) && (d <=? days_in_month y m))%Z
  then Some (Date y m d, s) else None.

Definition parse_fraction (s : string) : option (Z * string) :=
  match s with
  | String "." s' =>
      match number 6 0 s' with
      | Some r => Some r
      | None => '(ms, r) ← number 3 0 s'; Some (ms * 1000, r)%Z
      end
  | _ => Some (0%Z, s)
  end.

Definition parse_offset (s : string) : option (option Z) :=
  match s with
  | EmptyString => Some None
  | String sign s' =>
      sgn ← (if Ascii.eqb sign "+"%char then Some 1%Z
             else if Ascii.eqb sign "-"%char then Some (-1)%Z else None);
      '(h, s) ← number 2 0 s';
      s ← expect ":"%char s;
      '(m, s) ← number 2 0 s;
      match s with
      | EmptyString =>
          if ((h <? 24) && (m <? 60))%Z
          then Some (Some (sgn * (h * 3600 + m * 60))%Z) else None
      | _ => None
      end
  end.

Definition fromisoformat (s : string) : option datetime :=
  '(d, s) ← parse_date s;
  match s with
  | EmptyString => Some (midnight d)
  | String _ s =>
      '(h, s) ← number 2 0 s;
      s ← expect ":"%char s;
      '(mi, s) ← number 2 0 s;
      s ← expect ":"%char s;
      '(se, s) ← number 2 0 s;
      '(us, s) ← parse_fraction s;
      off ← parse_offset s;
      if ((h <? 24) && (mi <? 60) && (se <? 60))%Z
      then Some (Datetime d h mi se us off) else None
  end.

End Iso.

(** ** MetadataCache *)

(** A metadata record is a [dict] from field names to strings, the cache a
    [dict] from video ids to metadata records. *)
Abbreviation metadata := (gmap string string).
Abbreviation cache_t := (gmap string (gmap string string)).

(** Truth value of a metadata record or [None]: an empty [dict] is false. *)
Definition truthy (m : option metadata) : bool :=
  match m with
  | Some d => negb (bool_decide (d = ∅))
  | None => false
  end.

Definition get_cached_metadata (cache : cache_t) (video_id : string) : option metadata :=
  cache !! video_id.

Definition cache_metadata (cache : cache_t) (video_id : string) (md : metadata) : cache_t :=
  <[video_id := md]> cache.

(** What [request.execute()] does for a video id: it returns a response whose
    ['items'] list gives, for each item, its ['snippet'] when it has one, or
    it raises [HttpError] with a status, or it raises something else. *)
Inductive api_outcome :=
| Response (items : list (option (gmap string string)))
| RaisesHttpError (status : Z)
| RaisesException.

(** What the program does that the outside can see, in the order it does it. *)
Inductive event :=
| Request (video_id : string)               (* [request.execute()] *)
| SaveCache (cache : cache_t)               (* [save_cache(cache)] *)
| EditTitle (item_title new_title : string) (* [item.editTitle(new_title)] *)
| EditSummary (item_title text : string)    (* [item.editSummary(text)] *)
| EditOriginallyAvailable (item_title : string) (d : date)
| Sleep.                                    (* [time.sleep(0.1)] *)

(** [d.get(k, '')] *)
Definition get_default (d : metadata) (k : string) : string := default EmptyString (d !! k).

(** Lines 140-145: the record built from the snippet of the first item. *)
Definition snippet_metadata (video_info : gmap string string) : metadata :=
  {[ "title" := get_default video_info "title";
     "channel_name" := get_default video_info "channelTitle";
     "description" := get_default video_info "description";
     "published_at" := get_default video_info "publishedAt" ]}.

(** The result, the cache after the call and the requests sent. *)
Definition get_youtube_metadata (youtube_service : string → api_outcome)
    (video_id : string) (cache : cache_t)
  : option metadata * cache_t * list event :=
  let cached_metadata := get_cached_metadata cache video_id in
  if truthy cached_metadata then (cached_metadata, cache, [])
  else
    match youtube_service video_id with
    | Response [] => (None, cache, [Request video_id])
    | Response (Some video_info :: _) =>
        let md := snippet_metadata video_info in
        (Some md, cache_metadata cache video_id md, [Request video_id])
    | Response (None :: _) => (None, cache, [Request video_id])   (* [KeyError] *)
    | RaisesHttpError _ => (None, cache, [Request video_id])
    | RaisesException => (None, cache, [Request video_id])
    end.

(** ** The media-server item *)

Record PlexItem := Item {
  title : string;
  (** [None]: no media or no parts; otherwise [media[0].parts[0].file]. *)
  media : option (option string);
  summary : option string;
  originallyAvailableAt : option datetime;
  (** Whether the server refuses the edit: the call raises. *)
  editTitle_raises : bool;
  editSummary_raises : bool;
  editOriginallyAvailable_raises : bool
}.

Definition editTitle (new_title : string) (i : PlexItem) : option PlexItem :=
  if editTitle_raises i then None
  else Some (Item new_title (media i) (summary i) (originallyAvailableAt i)
               (editTitle_raises i) (editSummary_raises i) (editOriginallyAvailable_raises i)).

Definition editSummary (text : string) (i : PlexItem) : option PlexItem :=
  if editSummary_raises i then None
  else Some (Item (title i) (media i) (Some text) (originallyAvailableAt i)
               (editTitle_raises i) (editSummary_raises i) (editOriginallyAvailable_raises i)).

Definition editOriginallyAvailable (d : date) (i : PlexItem) : option PlexItem :=
  if editOriginallyAvailable_raises i then None
  else Some (Item (title i) (media i) (summary i) (Some (midnight d))
               (editTitle_raises i) (editSummary_raises i) (editOriginallyAvailable_raises i)).

(** ** ChangeDetector and HydrationOrchestrator *)

Record decision := Decision {
  title_changed : bool;
  summary_changed : bool;
  date_changed : bool
}.

Definition any_changed (d : decision) : bool :=
  title_changed d || summary_changed d || date_changed d.

(** The path an item takes through the body of the loop. *)
Inductive outcome :=
| NoMedia                       (* no media file: failed, [continue] *)
| NoIdentifier                  (* no id in the file name: failed, [continue] *)
| NoMetadata                    (* no metadata: failed, [continue] *)
| ItemError                     (* an exception reaches the item's handler *)
| Applied (d : decision) (changes : option (list string))
                                (* live, something changed; [None]: an edit raised *)
| Reported (d : decision) (changes : list string)
                                (* dry run, something changed *)
| Skipped (d : decision).       (* nothing changed *)

Record run_state := State {
  cache : cache_t;
  processed_count : nat;
  updated_count : nat;
  failed_count : nat;
  cache_hits : nat;
  api_calls : nat;
  cache_saves : nat;
  trace : list event
}.

Definition initial (cache : cache_t) : run_state := State cache 0 0 0 0 0 0 [].

Definition set_cache (c : cache_t) (s : run_state) : run_state :=
  State c (processed_count s) (updated_count s) (failed_count s) (cache_hits s)
    (api_calls s) (cache_saves s) (trace s).

Definition emit (evs : list event) (s : run_state) : run_state :=
  State (cache s) (processed_count s) (updated_count s) (failed_count s) (cache_hits s)
    (api_calls s) (cache_saves s) (trace s ++ evs).

Definition incr_processed (s : run_state) : run_state :=
  State (cache s) (processed_count s + 1) (updated_count s) (failed_count s) (cache_hits s)
    (api_calls s) (cache_saves s) (trace s).

Definition incr_updated (s : run_state) : run_state :=
  State (cache s) (processed_count s) (updated_count s + 1) (failed_count s) (cache_hits s)
    (api_calls s) (cache_saves s) (trace s).

Definition incr_failed (s : run_state) : run_state :=
  State (cache s) (processed_count s) (updated_count s) (failed_count s + 1) (cache_hits s)
    (api_calls s) (cache_saves s) (trace s).

Definition incr_cache_hits (s : run_state) : run_state :=
  State (cache s) (processed_count s) (updated_count s) (failed_count s) (cache_hits s + 1)
    (api_calls s) (cache_saves s) (trace s).

Definition incr_api_calls (s : run_state) : run_state :=
  State (cache s) (processed_count s) (updated_count s) (failed_count s) (cache_hits s)
    (api_calls s + 1) (cache_saves s) (trace s).

(** [save_cache(cache); cache_saves += 1] *)
Definition save_cache (s : run_state) : run_state :=
  State (cache s) (processed_count s) (updated_count s) (failed_count s) (cache_hits s)
    (api_calls s) (cache_saves s + 1) (trace s ++ [SaveCache (cache s)]).

Inductive run_result :=
| RunRaised (saved : list event)   (* the run aborts: the cache is saved, the error re-raised *)
| NoItems                          (* the library is empty: return at once *)
| Summary (outcomes : list outcome) (items : list PlexItem) (final : run_state).

Section Hydrator.

(** [datetime.fromisoformat]; [None] is its [ValueError]. *)
Variable fromisoformat : string → option datetime.

Definition parse_youtube_date (published_at : string) : option datetime :=
  match published_at with
  | EmptyString => None
  | _ =>
      let published_at :=
        if Str.endswith_char "Z"%char published_at
        then Str.drop_last published_at +:+ "+00:00"
        else published_at in
      fromisoformat (Str.replace "Z"%char "+00:00" published_at)
  end.

(** Lines 376-393: what needs updating. *)
Definition detect (item : PlexItem) (new_title video_description : string)
    (youtube_publish_date : option datetime) : decision :=
  let current_summary := default EmptyString (summary item) in
  let current_date := originallyAvailableAt item in
  Decision
    (negb (bool_decide (title item = new_title)))
    (negb (bool_decide (current_summary = video_description)))
    (match youtube_publish_date with
     | Some youtube_publish_date =>
         match current_date with
         | None => true
         | Some current_date =>
             date_ne (dt_date youtube_publish_date) (dt_date current_date)
         end
     | None => false
     end).

(** One guarded edit call inside the [try] of lines 396-410: nothing more
    runs once a call has raised. *)
Definition attempt (guard : bool) (ev : event) (edit : PlexItem → option PlexItem)
    (name : string) (acc : option (list string) * PlexItem * list event)
  : option (list string) * PlexItem * list event :=
  match acc with
  | (Some changes, item, evs) =>
      if guard then
        match edit item with
        | Some item' => (Some (changes ++ [name]), item', evs ++ [ev])
        | None => (None, item, evs ++ [ev])
        end
      else acc
  | (None, _, _) => acc
  end.

Definition nonempty (s : string) : bool :=
  match s with EmptyString => false | _ => true end.

(** Lines 397-407: the edits of the live mode; [None] when one raised. *)
Definition apply_updates (d : decision) (new_title video_description : string)
    (youtube_publish_date : option datetime) (item : PlexItem)
  : option (list string) * PlexItem * list event :=
  let acc := (Some [], item, []) in
  let acc := attempt (title_changed d) (EditTitle (title item) new_title)
               (editTitle new_title) "title" acc in
  let acc := attempt (summary_changed d && nonempty video_description)
               (EditSummary (title item) video_description)
               (editSummary video_description) "summary" acc in
  match youtube_publish_date with
  | Some youtube_publish_date =>
      let date_only := dt_date youtube_publish_date in
      attempt (date_changed d) (EditOriginallyAvailable (title item) date_only)
        (editOriginallyAvailable date_only) "publish date" acc
  | None => acc
  end.

(** Lines 416-422: the changes a dry run reports. *)
Definition would_update (d : decision) (video_description : string)
    (youtube_publish_date : option datetime) : list string :=
  ((if title_changed d then ["title"] else [])
   ++ (if summary_changed d && nonempty video_description then ["summary"] else [])
   ++ (if date_changed d && bool_decide (is_Some youtube_publish_date)
       then ["publish date"] else [])).

(** Lines 333-342: the metadata of the item, from the cache or the API. *)
Definition resolve (youtube_service : string → api_outcome) (youtube_id : string)
    (st : run_state) : option metadata * run_state :=
  let cached_metadata := get_cached_metadata (cache st) youtube_id in
  if truthy cached_metadata then (cached_metadata, incr_cache_hits st)
  else
    let '(md, c, evs) := get_youtube_metadata youtube_service youtube_id (cache st) in
    let st := emit evs (set_cache c st) in
    (md, if truthy md then incr_api_calls st else st).

(** Lines 428-437: count the item, save the cache every 10 items, sleep
    after an API call. *)
Definition checkpoint (was_cached : bool) (st : run_state) : run_state :=
  let st := incr_processed st in
  let st := if (processed_count st mod 10 =? 0) then save_cache st else st in
  if was_cached then st else emit [Sleep] st.

(** The body of the [for] loop, lines 317-442. *)
Definition process_item (youtube_service : string → api_outcome) (dry_run : bool)
    (item : PlexItem) (st : run_state) : outcome * PlexItem * run_state :=
  match media item with
  | None => (NoMedia, item, incr_failed st)
  | Some file_path =>
      match fst (extract_youtube_id file_path) with
      | None => (NoIdentifier, item, incr_failed st)
      | Some youtube_id =>
          let was_cached := truthy (get_cached_metadata (cache st) youtube_id) in
          let '(md, st) := resolve youtube_service youtube_id st in
          if negb (truthy md) then (NoMetadata, item, incr_failed st)
          else
            let md := default ∅ md in
            match md !! "channel_name", md !! "title" with
            | Some channel_name, Some video_title =>
                let new_title := create_new_title channel_name video_title in
                let video_description := get_default md "description" in
                let youtube_publish_date :=
                  parse_youtube_date (get_default md "published_at") in
                let d := detect item new_title video_description youtube_publish_date in
                if negb dry_run && any_changed d then
                  let '(changes, item', evs) :=
                    apply_updates d new_title video_description youtube_publish_date item in
                  let st := emit evs st in
                  let st :=
                    match changes with
                    | Some (_ :: _) => incr_updated st
                    | Some [] => st
                    | None => incr_failed st
                    end in
                  (Applied d changes, item', checkpoint was_cached st)
                else if dry_run && any_changed d then
                  (Reported d (would_update d video_description youtube_publish_date),
                   item, checkpoint was_cached (incr_updated st))
                else (Skipped d, item, checkpoint was_cached st)
            | _, _ => (ItemError, item, incr_failed st)   (* [KeyError] *)
            end
      end
  end.

(** The [for] loop: the outcomes and the items as the server has them
    afterwards, in order, and the state after the last item. *)
Fixpoint process_items (youtube_service : string → api_outcome) (dry_run : bool)
    (items : list PlexItem) (st : run_state)
  : list outcome * list PlexItem * run_state :=
  match items with
  | [] => ([], [], st)
  | item :: rest =>
      let '(o, item', st) := process_item youtube_service dry_run item st in
      let '(os, items', st) := process_items youtube_service dry_run rest st in
      (o :: os, item' :: items', st)
  end.

(** [library_all] is the result of [library.all()], [None] when it raises;
    [loaded] is what [load_cache()] returned.  [verbose] only adds console
    output. *)
Definition process_library_items (library_all : option (list PlexItem))
    (youtube_service : string → api_outcome) (loaded : cache_t)
    (dry_run verbose : bool) : run_result :=
  match library_all with
  | None => RunRaised [SaveCache loaded]
  | Some [] => NoItems
  | Some items =>
      let '(os, items', st) :=
        process_items youtube_service dry_run items (initial loaded) in
      Summary os items' (save_cache st)
  end.

End Hydrator.

(** * Specification vocabulary *)

(** ** Occurrences of a pattern in a file name *)

(** An identifier: 11 characters of the class. *)
Definition token (t : string) : Prop :=
  String.length t = 11 ∧ Forall (λ c, id_char c = true) (list_ascii_of_string t).

(** [s] reads [pre], the opening delimiter, the token [t], the closing
    delimiter, and then anything. *)
Definition occurs (p : pattern) (s pre t : string) : Prop :=
  token t ∧ ∃ post, s = pre +:+ opening p +:+ t +:+ closing p +:+ post.

(** [t] is the token of the occurrence that starts first. *)
Definition leftmost (p : pattern) (s t : string) : Prop :=
  ∃ pre, occurs p s pre t
         ∧ ∀ pre' t', occurs p s pre' t' → String.length pre ≤ String.length pre'.

Definition unmatched (p : pattern) (s : string) : Prop :=
  ∀ pre t, ¬ occurs p s pre t.


Definition is_warning (r : log_record) : bool :=
  match log_level r with WARNING => true | _ => false end.

(** ** The provider *)

(** The lookup gives no record: the response lists no item (not found), the
    call raises, or reading the snippet of the first item raises. *)
Definition lookup_failed (o : api_outcome) : bool :=
  match o with
  | Response (Some _ :: _) => false
  | Response [] | Response (None :: _) | RaisesHttpError _ | RaisesException => true
  end.

(** ** Counting *)

Fixpoint count_if {A : Type} (f : A → bool) (l : list A) : nat :=
  match l with
  | [] => 0
  | x :: l' => (if f x then 1 else 0) + count_if f l'
  end.

Definition b2n (b : bool) : nat := if b then 1 else 0.

(** The outcomes the summary counts as failed, processed and updated. *)
Definition counts_failed (o : outcome) : bool :=
  match o with
  | NoMedia | NoIdentifier | NoMetadata | ItemError | Applied _ None => true
  | Applied _ (Some _) | Reported _ _ | Skipped _ => false
  end.

Definition counts_processed (o : outcome) : bool :=
  match o with
  | Applied _ _ | Reported _ _ | Skipped _ => true
  | NoMedia | NoIdentifier | NoMetadata | ItemError => false
  end.

Definition counts_updated (o : outcome) : bool :=
  match o with
  | Applied _ (Some (_ :: _)) | Reported _ _ => true
  | _ => false
  end.



Definition decision_of (o : outcome) : option decision :=
  match o with
  | Applied d _ | Reported d _ | Skipped d => Some d
  | NoMedia | NoIdentifier | NoMetadata | ItemError => None
  end.

(** The caches written by [save_cache], oldest first. *)
Definition saves (tr : list event) : list cache_t :=
  omap (λ e, match e with SaveCache c => Some c | _ => None end) tr.

Definition is_request (video_id : string) (e : event) : bool :=
  match e with Request i => bool_decide (i = video_id) | _ => false end.

Definition is_edit (e : event) : bool :=
  match e with
  | EditTitle _ _ | EditSummary _ _ | EditOriginallyAvailable _ _ => true
  | _ => false
  end.

(** ** Checkpoints *)

(** The cache has been saved once for each ten processed items, and when the
    count stands at a multiple of ten the last save holds the cache as it
    is now. *)
Definition checkpointed (st : run_state) : Prop :=
  cache_saves st = processed_count st / 10
  ∧ length (saves (trace st)) = cache_saves st
  ∧ (0 < processed_count st → processed_count st mod 10 = 0 →
     last (saves (trace st)) = Some (cache st)).

(** ** The date flag as the specification words it

    [normalise] gives the calendar date of the parsed timestamp:
    [utc_date] where the timestamp is taken to UTC first, [dt_date] where the
    date is read as written. *)
Definition date_changed_spec (normalise : datetime → date)
    (parsed : option datetime) (original_date : option date) : bool :=
  match parsed with
  | None => false
  | Some dt =>
      match original_date with
      | None => true
      | Some d => date_ne (normalise dt) d
      end
  end.

Definition no_Z (s : string) : Prop :=
  Forall (λ c, c ≠ "Z"%char) (list_ascii_of_string s).

(** ** Running twice *)

(** The metadata a lookup of [video_id] ends with when the cache is [c]. *)
Definition resolved (youtube_service : string → api_outcome) (c : cache_t)
    (video_id : string) : option metadata :=
  fst (fst (get_youtube_metadata youtube_service video_id c)).

(** Two caches that every lookup ends the same way with. *)
Definition agree (youtube_service : string → api_outcome) (c c' : cache_t) : Prop :=
  ∀ video_id, resolved youtube_service c video_id = resolved youtube_service c' video_id.

(** The server accepts every edit of the item. *)
Definition edits_accepted (item : PlexItem) : Prop :=
  editTitle_raises item = false ∧ editSummary_raises item = false
  ∧ editOriginallyAvailable_raises item = false.

(** The outcome of an item, the item afterwards and the edit calls made, as
    they depend on the cache the body of the loop starts with. *)
Definition item_view (fromisoformat : string → option datetime)
    (youtube_service : string → api_outcome) (dry_run : bool) (item : PlexItem)
    (c : cache_t) : outcome * PlexItem * list event :=
  match media item with
  | None => (NoMedia, item, [])
  | Some file_path =>
      match fst (extract_youtube_id file_path) with
      | None => (NoIdentifier, item, [])
      | Some youtube_id =>
          let md := resolved youtube_service c youtube_id in
          if negb (truthy md) then (NoMetadata, item, [])
          else
            let md := default ∅ md in
            match md !! "channel_name", md !! "title" with
            | Some channel_name, Some video_title =>
                let new_title := create_new_title channel_name video_title in
                let video_description := get_default md "description" in
                let youtube_publish_date :=
                  parse_youtube_date fromisoformat (get_default md "published_at") in
                let d := detect item new_title video_description youtube_publish_date in
                if negb dry_run && any_changed d then
                  let '(changes, item', evs) :=
                    apply_updates d new_title video_description youtube_publish_date item in
                  (Applied d changes, item', evs)
                else if dry_run && any_changed d then
                  (Reported d (would_update d video_description youtube_publish_date),
                   item, [])
                else (Skipped d, item, [])
            | _, _ => (ItemError, item, [])
            end
      end
  end.

(** What a run over an already hydrated item may decide: the title and the
    date need nothing; the summary flag may stay up, and then no edit is due
    because the description is empty while the summary is not. *)
Definition settled (youtube_service : string → api_outcome) (c : cache_t)
    (item : PlexItem) (o : outcome) : Prop :=
  ∀ d, decision_of o = Some d →
    title_changed d = false ∧ date_changed d = false
    ∧ (summary_changed d = true →
       o = Applied d (Some [])
       ∧ default EmptyString (summary item) ≠ EmptyString
       ∧ ∃ file_path youtube_id md,
           media item = Some file_path
           ∧ fst (extract_youtube_id file_path) = Some youtube_id
           ∧ resolved youtube_service c youtube_id = Some md
           ∧ get_default md "description" = EmptyString).

(** ** A small library and provider to try things on *)

Module Demo.

Definition service (video_id : string) : api_outcome :=
  if bool_decide (video_id = "dQw4w9WgXcQ") then
    Response [Some {[ "title" := "Title: One"; "channelTitle" := "AB/CD";
                      "description" := "About the video";
                      "publishedAt" := "2023-12-25T10:30:00Z" ]}]
  else if bool_decide (video_id = "silentVideo") then
    Response [Some {[ "title" := "Quiet"; "channelTitle" := "Calm";
                      "description" := EmptyString;
                      "publishedAt" := "2024-02-29T08:00:00Z" ]}]
  else if bool_decide (video_id = "eastern_TZ1") then
    Response [Some {[ "title" := "Late show"; "channelTitle" := "East";
                      "description" := "Recorded late";
                      "publishedAt" := "2023-12-25T23:30:00-05:00" ]}]
  else if bool_decide (video_id = "quota_12345") then RaisesHttpError 403
  else Response [].

Definition video : PlexItem :=
  Item "Some video" (Some (Some "/media/youtube/AB/Some video [dQw4w9WgXcQ].mkv"))
    None None false false false.

(** The server refuses to change the summary of this one. *)
Definition stubborn : PlexItem :=
  Item "Clip" (Some (Some "/media/youtube/AB/clip_dQw4w9WgXcQ.mp4"))
    (Some "old summary") None false true false.


Definition silent : PlexItem :=
  Item "Quiet" (Some (Some "/media/youtube/Calm/Quiet (silentVideo).mp4"))
    (Some "A summary written by hand") None false false false.

Definition eastern : PlexItem :=
  Item "East - Late show" (Some (Some "/media/youtube/East/[eastern_TZ1].mkv"))
    (Some "Recorded late") (Some (midnight (Date 2023 12 25))) false false false.

Definition no_media : PlexItem := Item "Empty" None None None false false false.

Definition no_id : PlexItem :=
  Item "Holiday" (Some (Some "/media/home/holiday.mp4")) None None false false false.

Definition missing : PlexItem :=
  Item "Gone" (Some (Some "/media/youtube/Gone [notOnYouTub].mkv"))
    None None false false false.

(** An item that already carries what the provider says. *)
Definition hydrated : PlexItem :=
  Item "AB-CD - Title - One"
    (Some (Some "/media/youtube/AB/Title One (dQw4w9WgXcQ).avi"))
    (Some "About the video") (Some (midnight (Date 2023 12 25))) false false false.

Definition before : list PlexItem := replicate 4 video.

Definition after : list PlexItem := [hydrated; silent; hydrated; silent; silent].

Definition ten_failures : list PlexItem :=
  replicate 4 no_media ++ replicate 3 no_id ++ replicate 3 missing.

Definition ten_videos : list PlexItem := replicate 10 video.

Definition library : list PlexItem := [video; silent; no_media; eastern; missing; video].

End Demo.

(** ** What a sanitized text looks like *)

(** A character the [replacements] dict has a key for. *)
Definition forbidden (c : ascii) : bool :=
  existsb (λ r, Ascii.eqb c (fst r)) replacements.

(** Every whitespace character of [s] is a plain space that does not follow
    another whitespace character; [after_space] says that the character before
    [s] counts as one, so [spaced true s] also rules out a leading space. *)
Fixpoint spaced (after_space : bool) (s : string) : bool :=
  match s with
  | EmptyString => true
  | String a s' =>
      if is_space a
      then Ascii.eqb a " "%char && negb after_space && spaced true s'
      else spaced false s'
  end.

(** The last character, if there is one, is not whitespace. *)
Fixpoint ends_nonspace (s : string) : bool :=
  match s with
  | EmptyString => true
  | String a EmptyString => negb (is_space a)
  | String _ s' => ends_nonspace s'
  end.

(** No character to replace, single inner spaces only, at most 200
    characters. *)
Definition tidy (s : string) : Prop :=
  Forall (λ c, forbidden c = false) (list_ascii_of_string s)
  ∧ spaced true s = true ∧ ends_nonspace s = true ∧ String.length s ≤ 200.

(** ** Accounting for a run *)

(** The item got its metadata, from the cache or from the provider. *)
Definition metadata_found (o : outcome) : bool :=
  match o with
  | NoMedia | NoIdentifier | NoMetadata => false
  | ItemError | Applied _ _ | Reported _ _ | Skipped _ => true
  end.

Definition no_metadata (o : outcome) : bool :=
  match o with NoMetadata => true | _ => false end.

Definition is_any_request (e : event) : bool :=
  match e with Request _ => true | _ => false end.

Definition is_sleep (e : event) : bool :=
  match e with Sleep => true | _ => false end.

(** An edit call worth making: a title that differs from the one the item
    has, a summary that is not empty. *)
Definition good_edit (e : event) : Prop :=
  match e with
  | EditTitle item_title new_title => item_title ≠ new_title
  | EditSummary _ text => text ≠ EmptyString
  | _ => True
  end.

(** Every record of the cache that is not empty names the channel and the
    title. *)
Definition well_formed (c : cache_t) : Prop :=
  ∀ video_id md, c !! video_id = Some md → md ≠ ∅ →
    is_Some (md !! "channel_name") ∧ is_Some (md !! "title").

(** The dry run reports what the live run does. *)
Definition previews (o_dry o_live : outcome) : Prop :=
  match o_dry with
  | Reported d changes => o_live = Applied d (Some changes)
  | _ => o_live = o_dry
  end.

(** What the loop may do to an item: the file and the server's behaviour stay;
    the title stays or becomes [new_title] for some composed title; the
    summary stays or becomes a text that is not empty; the date stays or
    becomes the midnight of some date. *)
Definition kept (item item' : PlexItem) : Prop :=
  media item' = media item
  ∧ editTitle_raises item' = editTitle_raises item
  ∧ editSummary_raises item' = editSummary_raises item
  ∧ editOriginallyAvailable_raises item' = editOriginallyAvailable_raises item
  ∧ (title item' = title item
     ∨ ∃ channel_name video_title, title item' = create_new_title channel_name video_title)
  ∧ (summary item' = summary item
     ∨ ∃ text, summary item' = Some text ∧ text ≠ EmptyString)
  ∧ (originallyAvailableAt item' = originallyAvailableAt item
     ∨ ∃ d, originallyAvailableAt item' = Some (midnight d)).

(** The file of [Demo.video] under another title, on a server that refuses to
    change titles. *)
Definition renamed_video : PlexItem :=
  Item "Renamed" (media Demo.video) (Some "kept") None true false false.

(** ** Choosing the library: [get_library] *)

(** [str.lower] on the characters below 256: the letters A-Z and the accented
    capitals from 192 to 222, the multiplication sign at 215 apart, move up by
    32; every other character stays. *)
Definition lower_char (c : ascii) : ascii :=
  if Str.in_range 65 90 c || (Str.in_range 192 222 c && negb (Str.code c =? 215))
  then Str.chr (Str.code c + 32) else c.

Fixpoint lower (s : string) : string :=
  match s with
  | EmptyString => EmptyString
  | String a s' => String (lower_char a) (lower s')
  end.

Record library := Library {
  lib_title : string;
  lib_type : string;
  totalSize : nat
}.

(** One turn of the prompt: what [int(input(...))] gives. *)
Inductive entry :=
| Typed (n : Z)     (* a number *)
| NotANumber        (* [ValueError] *)
| Interrupted.      (* [KeyboardInterrupt] *)

Inductive selection :=
| Selected (l : library)
| RaisesValueError (message : string)
| Exits (code : Z)          (* [exit(0)] *)
| Prompting.                (* still waiting for the next entry *)

(** Lines 260-263: the first library with that title, case apart. *)
Fixpoint find_by_title (libraries : list library) (library_name : string)
  : option library :=
  match libraries with
  | [] => None
  | l :: rest =>
      if bool_decide (lower (lib_title l) = lower library_name) then Some l
      else find_by_title rest library_name
  end.

(** Lines 271-284: the prompt, one entry at a time. *)
Fixpoint choose (libraries : list library) (entries : list entry) : selection :=
  match entries with
  | [] => Prompting
  | Typed n :: rest =>
      let choice := (n - 1)%Z in
      if ((0 <=? choice) && (choice <? Z.of_nat (length libraries)))%Z then
        match libraries !! Z.to_nat choice with
        | Some l => Selected l
        | None => choose libraries rest   (* not reached: the index is in range *)
        end
      else choose libraries rest
  | NotANumber :: rest => choose libraries rest
  | Interrupted :: _ => Exits 0
  end.

(** [libraries] is what [plex.library.sections()] returned, [entries] what the
    user types at the prompt. *)
Definition get_library (libraries : list library) (library_name : option string)
    (entries : list entry) : selection :=
  match libraries with
  | [] => RaisesValueError "No libraries found on Plex server"
  | _ =>
      match library_name with
      | Some (String a name) =>
          match find_by_title libraries (String a name) with
          | Some l => Selected l
          | None => RaisesValueError ("Library '" +:+ String a name +:+ "' not found")
          end
      | _ => choose libraries entries
      end
  end.

(** An entry the prompt asks again after. *)
Definition rejected (libraries : list library) (e : entry) : Prop :=
  match e with
  | Typed n => (n < 1 ∨ Z.of_nat (length libraries) < n)%Z
  | NotANumber => True
  | Interrupted => False
  end.

(** * Properties *)

(** ** Strings *)

Lemma append_nil_l (s : string) : EmptyString +:+ s = s.
Proof. reflexivity. Qed.

Lemma append_cons (a : ascii) (s r : string) : String a s +:+ r = String a (s +:+ r).
Proof. reflexivity. Qed.

Lemma append_assoc (s1 s2 s3 : string) : (s1 +:+ s2) +:+ s3 = s1 +:+ s2 +:+ s3.
Proof.
  induction s1 as [|a s1 IH]; [reflexivity|].
  rewrite !append_cons. by rewrite IH.
Qed.

Lemma append_length (s r : string) :
  String.length (s +:+ r) = String.length s + String.length r.
Proof.
  induction s as [|a s IH]; [reflexivity|].
  rewrite append_cons. simpl. by rewrite IH.
Qed.

Lemma append_inj_length (a a' b b' : string) :
  String.length a = String.length a' → a +:+ b = a' +:+ b' → a = a' ∧ b = b'.
Proof.
  revert a'. induction a as [|c a IH]; intros [|c' a'] Hlen Heq; try done.
  rewrite !append_cons in Heq. injection Heq as -> Heq.
  injection Hlen as Hlen. destruct (IH a') as [-> ->]; done.
Qed.

Lemma chars_append (s r : string) :
  list_ascii_of_string (s +:+ r)
  = (list_ascii_of_string s ++ list_ascii_of_string r).
Proof.
  induction s as [|a s IH]; [reflexivity|].
  rewrite append_cons. simpl. by rewrite IH.
Qed.

Lemma startswith_append (p r : string) : Str.startswith p (p +:+ r) = true.
Proof.
  induction p as [|a p IH]; [reflexivity|].
  rewrite append_cons. simpl. by rewrite Ascii.eqb_refl.
Qed.

Lemma startswith_inv (p s : string) :
  Str.startswith p s = true → ∃ r, s = p +:+ r.
Proof.
  revert s. induction p as [|a p IH]; intros s H.
  - by exists s.
  - destruct s as [|b s]; [done|]. simpl in H.
    destruct (Ascii.eqb_spec a b) as [->|]; [|done].
    destruct (IH _ H) as [r ->]. by exists r.
Qed.

Lemma drop_append (p r : string) : Str.drop (String.length p) (p +:+ r) = r.
Proof. induction p as [|a p IH]; [reflexivity|]. by rewrite append_cons. Qed.

(** ** The regular expressions *)

Lemma id_chars_append (t r : string) :
  Forall (λ c, id_char c = true) (list_ascii_of_string t) →
  id_chars (String.length t) (t +:+ r) = Some (t, r).
Proof.
  induction t as [|a t IH]; intros H; [reflexivity|].
  rewrite append_cons. simpl in *. inversion_clear H as [|?? Ha Ht].
  by rewrite Ha, IH.
Qed.

Lemma id_chars_inv (n : nat) (s t r : string) :
  id_chars n s = Some (t, r) →
  s = t +:+ r ∧ String.length t = n
  ∧ Forall (λ c, id_char c = true) (list_ascii_of_string t).
Proof.
  revert s t r. induction n as [|n IH]; intros s t r H; simpl in H.
  - by simplify_eq.
  - destruct s as [|a s]; [done|].
    destruct (id_char a) eqn:Ha; [|done].
    destruct (id_chars n s) as [[t' r']|] eqn:E; [|done]. simplify_eq.
    destruct (IH _ _ _ E) as (-> & <- & Ht).
    split_and!; [done..|]. simpl. by constructor.
Qed.

Lemma token_length (t : string) : token t → String.length t = 11.
Proof. by intros [? _]. Qed.

Lemma match_here_occurs (p : pattern) (s t : string) :
  match_here p s = Some t ↔ occurs p s EmptyString t.
Proof.
  unfold match_here, occurs. split.
  - destruct (Str.startswith (opening p) s) eqn:Ho; [|done].
    apply startswith_inv in Ho as [r ->]. rewrite drop_append.
    destruct (id_chars 11 r) as [[t' r']|] eqn:E; [|done].
    destruct (Str.startswith (closing p) r') eqn:Hc; [|done].
    intros [= ->]. apply id_chars_inv in E as (-> & Hlen & Ht).
    apply startswith_inv in Hc as [post ->].
    split; [done|]. by exists post.
  - intros [[Hlen Ht] [post ->]]. rewrite append_nil_l.
    rewrite startswith_append, drop_append, <-Hlen, id_chars_append by done.
    by rewrite startswith_append.
Qed.

Lemma occurs_unique (p : pattern) (s pre t t' : string) :
  occurs p s pre t → occurs p s pre t' → t = t'.
Proof.
  intros [[Hl _] [post ->]] [[Hl' _] [post' Heq]].
  apply (inj (String.append pre)), (inj (String.append (opening p))) in Heq.
  apply append_inj_length in Heq as [? _]; [done|congruence].
Qed.

Lemma occurs_cons (p : pattern) (a : ascii) (s pre t : string) :
  occurs p (String a s) (String a pre) t ↔ occurs p s pre t.
Proof.
  unfold occurs. split; intros [Ht [post Heq]]; (split; [done|]); exists post.
  - rewrite append_cons in Heq. by simplify_eq.
  - rewrite append_cons. by rewrite Heq.
Qed.

Lemma occurs_head (p : pattern) (s pre t : string) :
  occurs p s pre t → match_here p s = None →
  ∃ a s' pre', s = String a s' ∧ pre = String a pre' ∧ occurs p s' pre' t.
Proof.
  intros Ho Hm. destruct pre as [|a pre'].
  - apply match_here_occurs in Ho. congruence.
  - destruct Ho as [Ht [post ->]]. rewrite append_cons.
    eexists _, _, _. split_and!; [done..|]. split; [done|]. by exists post.
Qed.

Lemma re_search_leftmost (p : pattern) (s t : string) :
  re_search p s = Some t ↔ leftmost p s t.
Proof.
  revert t. induction s as [|a s IH]; intros t; simpl.
  - destruct (match_here p EmptyString) as [t0|] eqn:Hm.
    + split.
      * intros [= ->]. exists EmptyString. split; [by apply match_here_occurs|].
        intros; simpl; lia.
      * intros (pre & Ho & Hmin). f_equal.
        apply match_here_occurs in Hm.
        specialize (Hmin _ _ Hm). destruct pre; [|simpl in Hmin; lia].
        eauto using occurs_unique.
    + split; [done|]. intros (pre & Ho & _).
      destruct (occurs_head _ _ _ _ Ho Hm) as (? & ? & ? & ? & _). done.
  - destruct (match_here p (String a s)) as [t0|] eqn:Hm.
    + split.
      * intros [= ->]. exists EmptyString. split; [by apply match_here_occurs|].
        intros; simpl; lia.
      * intros (pre & Ho & Hmin). f_equal.
        apply match_here_occurs in Hm.
        specialize (Hmin _ _ Hm). destruct pre; [|simpl in Hmin; lia].
        eauto using occurs_unique.
    + rewrite IH. split.
      * intros (pre & Ho & Hmin). exists (String a pre).
        split; [by apply occurs_cons|].
        intros pre' t' Ho'.
        destruct (occurs_head _ _ _ _ Ho' Hm) as (a' & s' & pre'' & Hs & -> & Ho'').
        injection Hs as <- <-. specialize (Hmin _ _ Ho''). simpl. lia.
      * intros (pre & Ho & Hmin).
        destruct (occurs_head _ _ _ _ Ho Hm) as (a' & s' & pre' & Hs & -> & Ho').
        injection Hs as <- <-. exists pre'. split; [done|].
        intros pre'' t' Ho''. apply (occurs_cons p a) in Ho''.
        specialize (Hmin _ _ Ho''). simpl in Hmin. lia.
Qed.

Lemma re_search_unmatched (p : pattern) (s : string) :
  re_search p s = None ↔ unmatched p s.
Proof.
  unfold unmatched. induction s as [|a s IH]; simpl.
  - destruct (match_here p EmptyString) as [t0|] eqn:Hm.
    + split; [done|]. intros H. apply match_here_occurs in Hm. by destruct (H _ _ Hm).
    + split; [|done]. intros _ pre t Ho.
      destruct (occurs_head _ _ _ _ Ho Hm) as (? & ? & ? & ? & _). done.
  - destruct (match_here p (String a s)) as [t0|] eqn:Hm.
    + split; [done|]. intros H. apply match_here_occurs in Hm. by destruct (H _ _ Hm).
    + rewrite IH. split.
      * intros H pre t Ho.
        destruct (occurs_head _ _ _ _ Ho Hm) as (a' & s' & pre' & Hs & -> & Ho').
        injection Hs as <- <-. by apply (H pre' t).
      * intros H pre t Ho. apply (H (String a pre) t). by apply occurs_cons.
Qed.

Lemma first_match_none (ps : list pattern) (filename : string) :
  first_match ps filename = None ↔ Forall (λ p, re_search p filename = None) ps.
Proof.
  induction ps as [|p ps IH]; simpl.
  - split; [constructor | done].
  - destruct (re_search p filename) eqn:E.
    + split; [done|]. intros H. inversion H. congruence.
    + rewrite IH. split; [by constructor | by inversion 1].
Qed.


(** ** IdentifierExtractor *)






Lemma first_match_empty : first_match patterns EmptyString = None.
Proof. reflexivity. Qed.



(** C9. For a missing or empty path [extract_youtube_id] returns [None] and
    logs nothing; a warning is logged exactly when the path is not empty and
    no pattern occurs in its file name, and then it is the only record. *)
Theorem C9_extract_warning :
  extract_youtube_id None = (None, [])
  ∧ extract_youtube_id (Some EmptyString) = (None, [])
  ∧ ∀ file_path,
      (∃ r, r ∈ snd (extract_youtube_id file_path) ∧ is_warning r = true)
      ↔ (∃ path, file_path = Some path ∧ path ≠ EmptyString
                 ∧ Forall (λ p, unmatched p (basename path)) patterns
                 ∧ extract_youtube_id file_path
                   = (None, [Log WARNING ("No YouTube ID found in: " +:+ basename path)])).
Proof.
  split_and!; [reflexivity..|].
  intros [[|a path]|]; unfold extract_youtube_id; cbv zeta.
  - split; [intros (r & Hr & _); by apply elem_of_nil in Hr|].
    by intros (? & [= <-] & ? & _).
  - destruct (first_match patterns (basename (String a path))) as [t|] eqn:E; simpl.
    + split.
      * intros (r & Hr & Hw). apply list_elem_of_singleton in Hr as ->. done.
      * intros (? & _ & _ & _ & [=]).
    + split.
      * intros _. exists (String a path). split_and!; [done..| |done].
        apply first_match_none in E. eapply Forall_impl; [exact E|].
        intros p. apply re_search_unmatched.
      * intros _. eexists. split; [by left|done].
  - split; [intros (r & Hr & _); by apply elem_of_nil in Hr|].
    by intros (? & [=] & _).
Qed.

Lemma C9_extract_warning_witness :
  (∃ r, r ∈ snd (extract_youtube_id (Some "/tv/[short].mkv")) ∧ is_warning r = true)
  ∧ extract_youtube_id (Some "/tv/[short].mkv")
    = (None, [Log WARNING "No YouTube ID found in: [short].mkv"]).
Proof.
  assert (Hw : ∃ r, r ∈ snd (extract_youtube_id (Some "/tv/[short].mkv"))
                    ∧ is_warning r = true)
    by (eexists; split; [by left|done]).
  split; [done|].
  destruct (proj1 (proj2 (proj2 C9_extract_warning) _) Hw) as (path & Hp & _ & _ & ->).
  by injection Hp as <-.
Defined.

(** ** TitleComposer *)

(** C2 (as the code has it). [create_new_title "AB/CD" "Title: One"] is
    ["AB-CD - Title - One"]: the channel sanitizes to ["AB-CD"] and the title to
    ["Title - One"], the colon becoming a space and a dash in front of the
    space that followed it. *)
Theorem C2_create_new_title_example :
  sanitize_filename "AB/CD" = "AB-CD"
  ∧ sanitize_filename "Title: One" = "Title - One"
  ∧ create_new_title "AB/CD" "Title: One" = "AB-CD - Title - One".
Proof. split_and!; reflexivity. Qed.

Lemma C2_create_new_title_counterexample :
  sanitize_filename "Title: One" ≠ "Title -One"
  ∧ create_new_title "AB/CD" "Title: One" ≠ "AB-CD - Title -One".
Proof. split; by vm_compute. Qed.

(** ** MetadataCache *)

(** C5. When the provider's lookup of an identifier fails, [get_youtube_metadata]
    leaves the cache as it was, so no entry is written and the size is the
    same, and sends a request only on a miss; on a miss the result is [None]. *)
Theorem C5_failed_lookup_not_cached (youtube_service : string → api_outcome)
    (video_id : string) (cache : cache_t) :
  lookup_failed (youtube_service video_id) = true →
  snd (fst (get_youtube_metadata youtube_service video_id cache)) = cache
  ∧ size (snd (fst (get_youtube_metadata youtube_service video_id cache))) = size cache
  ∧ (truthy (get_cached_metadata cache video_id) = false →
     fst (fst (get_youtube_metadata youtube_service video_id cache)) = None
     ∧ snd (get_youtube_metadata youtube_service video_id cache) = [Request video_id]).
Proof.
  intros Hf. unfold get_youtube_metadata.
  destruct (truthy (get_cached_metadata cache video_id)); [done|].
  destruct (youtube_service video_id) as [[|[snippet|] items]| |]; done.
Qed.

(** ** The orchestration loop *)

Lemma count_if_app {A : Type} (f : A → bool) (l1 l2 : list A) :
  count_if f (l1 ++ l2) = count_if f l1 + count_if f l2.
Proof. induction l1 as [|x l1 IH]; simpl; [done|]. rewrite IH. lia. Qed.

Lemma count_if_le {A : Type} (f : A → bool) (l : list A) : count_if f l ≤ length l.
Proof. induction l as [|x l IH]; simpl; [done|]. destruct (f x); lia. Qed.

Lemma count_if_none {A : Type} (f : A → bool) (l : list A) :
  Forall (λ x, f x = false) l → count_if f l = 0.
Proof. induction 1 as [|x l Hx _ IH]; simpl; [done|]. by rewrite Hx, IH. Qed.

Lemma saves_app (t1 t2 : list event) : saves (t1 ++ t2) = saves t1 ++ saves t2.
Proof. apply omap_app. Qed.

Section Loop.

Context (fromisoformat : string → option datetime).
Context (youtube_service : string → api_outcome).

Local Abbreviation step := (process_item fromisoformat youtube_service).
Local Abbreviation steps := (process_items fromisoformat youtube_service).
Local Abbreviation run := (process_library_items fromisoformat).

(** Case analysis along the body of the loop. *)
Ltac step_case :=
  match goal with
  | |- context [match media ?i with _ => _ end] => destruct (media i) as [?|] eqn:?
  | |- context [match fst (extract_youtube_id ?f) with _ => _ end] =>
      destruct (fst (extract_youtube_id f)) as [?|] eqn:?
  | |- context [resolve ?s ?i ?st] => destruct (resolve s i st) as [? ?] eqn:?
  | |- context [apply_updates ?d ?t ?v ?y ?i] =>
      destruct (apply_updates d t v y i) as [[[[|? ?]|] ?] ?] eqn:?
  | |- context [match ?m !! ?k with _ => _ end] => destruct (m !! k) as [?|] eqn:?
  | |- context [if negb (truthy ?m) then _ else _] => destruct (truthy m) eqn:?
  | |- context [if negb ?b && any_changed ?d then _ else _] =>
      destruct b; destruct (any_changed d) eqn:?
  | |- context [if any_changed ?d then _ else _] => destruct (any_changed d) eqn:?
  end; simpl.

Ltac step_cases := unfold process_item; repeat step_case.

Lemma process_items_app (dry_run : bool) (pre post : list PlexItem) (st : run_state) :
  steps dry_run (pre ++ post) st
  = let '(os1, is1, st1) := steps dry_run pre st in
    let '(os2, is2, st2) := steps dry_run post st1 in
    (os1 ++ os2, is1 ++ is2, st2).
Proof.
  revert st. induction pre as [|x pre IH]; intros st; simpl.
  - by destruct (steps dry_run post st) as [[??]?].
  - destruct (step dry_run x st) as [[o x'] st1]. rewrite IH.
    destruct (steps dry_run pre st1) as [[??]?].
    by destruct (steps dry_run post _) as [[??]?].
Qed.

Lemma process_items_length (dry_run : bool) (items : list PlexItem) (st : run_state) :
  length (fst (fst (steps dry_run items st))) = length items
  ∧ length (snd (fst (steps dry_run items st))) = length items.
Proof.
  revert st. induction items as [|x items IH]; intros st; simpl; [done|].
  destruct (step dry_run x st) as [[o x'] st1].
  specialize (IH st1). destruct (steps dry_run items st1) as [[??]?]. simpl in *. lia.
Qed.

Lemma resolve_counters (video_id : string) (st : run_state) :
  let st' := snd (resolve youtube_service video_id st) in
  processed_count st' = processed_count st ∧ updated_count st' = updated_count st
  ∧ failed_count st' = failed_count st ∧ cache_saves st' = cache_saves st
  ∧ saves (trace st') = saves (trace st).
Proof.
  unfold resolve, get_youtube_metadata.
  assert (Hs : saves (trace st ++ [Request video_id]) = saves (trace st))
    by (rewrite saves_app; simpl; by rewrite app_nil_r).
  destruct (truthy (get_cached_metadata _ _)); [done|].
  destruct (youtube_service video_id) as [[|[snippet|] items]| |]; simpl; auto.
Qed.

Lemma checkpoint_counters (was_cached : bool) (st : run_state) :
  let st' := checkpoint was_cached st in
  processed_count st' = processed_count st + 1 ∧ updated_count st' = updated_count st
  ∧ failed_count st' = failed_count st.
Proof.
  unfold checkpoint. simpl.
  destruct (_ =? 0); destruct was_cached; done.
Qed.

Lemma process_item_counters (dry_run : bool) (item : PlexItem) (st : run_state) :
  let '(o, _, st') := step dry_run item st in
  failed_count st' = failed_count st + b2n (counts_failed o)
  ∧ processed_count st' = processed_count st + b2n (counts_processed o)
  ∧ updated_count st' = updated_count st + b2n (counts_updated o).
Proof.
  step_cases;
    repeat match goal with
    | H : resolve _ ?i ?s = (_, ?s') |- _ =>
        pose proof (resolve_counters i s) as Hr; rewrite H in Hr; simpl in Hr; clear H
    | |- context [checkpoint ?b ?s] =>
        pose proof (checkpoint_counters b s) as Hc; simpl in Hc;
        generalize dependent (checkpoint b s); intros
    end; simpl in *; lia.
Qed.

Lemma snippet_metadata_keys (v : gmap string string) :
  snippet_metadata v !! "channel_name" = Some (get_default v "channelTitle")
  ∧ snippet_metadata v !! "title" = Some (get_default v "title")
  ∧ snippet_metadata v !! "description" = Some (get_default v "description")
  ∧ snippet_metadata v !! "published_at" = Some (get_default v "publishedAt").
Proof. unfold snippet_metadata. split_and!; by simplify_map_eq. Qed.

Lemma snippet_metadata_truthy (v : gmap string string) :
  truthy (Some (snippet_metadata v)) = true.
Proof.
  unfold truthy, snippet_metadata. apply negb_true_iff, bool_decide_eq_false.
  apply insert_non_empty.
Qed.

(** The three ways through lines 333-342. *)
Lemma resolve_facts (video_id : string) (st : run_state) (md : option metadata)
    (r : run_state) :
  resolve youtube_service video_id st = (md, r) →
  (truthy (cache st !! video_id) = true ∧ md = cache st !! video_id
   ∧ r = incr_cache_hits st)
  ∨ (truthy (cache st !! video_id) = false
     ∧ ∃ v rest, youtube_service video_id = Response (Some v :: rest)
         ∧ md = Some (snippet_metadata v)
         ∧ r = incr_api_calls (emit [Request video_id]
                 (set_cache (<[video_id := snippet_metadata v]> (cache st)) st)))
  ∨ (truthy (cache st !! video_id) = false
     ∧ lookup_failed (youtube_service video_id) = true ∧ md = None
     ∧ r = emit [Request video_id] (set_cache (cache st) st)).
Proof.
  unfold resolve, get_youtube_metadata, get_cached_metadata, cache_metadata.
  destruct (truthy (cache st !! video_id)) eqn:Hc.
  - intros [= <- <-]. by left.
  - destruct (youtube_service video_id) as [[|[v|] rest]| |] eqn:Hs; cbv zeta;
      rewrite ?snippet_metadata_truthy; intros [= <- <-];
      try (by right; right).
    right; left. split; [done|]. by exists v, rest.
Qed.

Lemma attempt_edits (guard : bool) (ev : event) (edit : PlexItem → option PlexItem)
    (name : string) (acc : option (list string) * PlexItem * list event) :
  is_edit ev = true →
  Forall (λ e, is_edit e = true) (snd acc) →
  Forall (λ e, is_edit e = true) (snd (attempt guard ev edit name acc)).
Proof.
  intros Hev Hacc. destruct acc as [[[changes|] item] evs]; simpl in *; [|done].
  destruct guard; [|done].
  destruct (edit item); simpl; apply Forall_app; by repeat constructor.
Qed.

Lemma apply_updates_edits (d : decision) (new_title video_description : string)
    (youtube_publish_date : option datetime) (item : PlexItem) :
  Forall (λ e, is_edit e = true)
    (snd (apply_updates d new_title video_description youtube_publish_date item)).
Proof.
  unfold apply_updates.
  destruct youtube_publish_date; repeat (apply attempt_edits; [done|]); by constructor.
Qed.

Lemma saves_edits (evs : list event) :
  Forall (λ e, is_edit e = true) evs → saves evs = [].
Proof.
  induction 1 as [|e evs He _ IH]; [done|]. by destruct e.
Qed.

Lemma tenth_succ (p : nat) :
  (p + 1) / 10 = if (p + 1) mod 10 =? 0 then p / 10 + 1 else p / 10.
Proof.
  pose proof (Nat.div_mod_eq p 10). pose proof (Nat.div_mod_eq (p + 1) 10).
  pose proof (Nat.mod_upper_bound p 10). pose proof (Nat.mod_upper_bound (p + 1) 10).
  destruct (Nat.eqb_spec ((p + 1) mod 10) 0); lia.
Qed.

Lemma checkpoint_checkpointed (was_cached : bool) (st : run_state) :
  cache_saves st = processed_count st / 10 →
  length (saves (trace st)) = cache_saves st →
  checkpointed (checkpoint was_cached st).
Proof.
  intros Hs Hl. unfold checkpoint, checkpointed.
  cbn [incr_processed processed_count].
  generalize (tenth_succ (processed_count st)).
  destruct (Nat.eqb_spec ((processed_count st + 1) mod 10) 0) as [Hz|Hnz]; intros Ht.
  - assert (Hlast : last (saves (trace st ++ [SaveCache (cache st)])) = Some (cache st))
      by (rewrite saves_app; apply last_snoc).
    assert (Hlen : length (saves (trace st ++ [SaveCache (cache st)]))
                   = cache_saves st + 1)
      by (rewrite saves_app, length_app; simpl; lia).
    destruct was_cached;
      cbn [save_cache emit incr_processed processed_count cache_saves trace cache];
      rewrite ?saves_app, ?app_nil_r; rewrite <-?saves_app;
      (split_and!; [lia|done|done]).
  - destruct was_cached;
      cbn [save_cache emit incr_processed processed_count cache_saves trace cache];
      rewrite ?saves_app, ?app_nil_r; (split_and!; [lia|done|lia]).
Qed.

Lemma checkpointed_frame (st st' : run_state) :
  checkpointed st →
  cache st' = cache st → processed_count st' = processed_count st →
  cache_saves st' = cache_saves st → saves (trace st') = saves (trace st) →
  checkpointed st'.
Proof. unfold checkpointed. intros (? & ? & ?) -> -> -> ->. done. Qed.

Lemma process_item_checkpointed (dry_run : bool) (item : PlexItem) (st : run_state) :
  checkpointed st → checkpointed (snd (step dry_run item st)).
Proof.
  intros Hinv. pose proof Hinv as (Hs & Hl & _).
  step_cases;
    repeat match goal with
    | H : resolve _ _ _ = _ |- _ =>
        apply resolve_facts in H as [(? & -> & ->)|[(? & v & rest & ? & -> & ->)|(? & ? & -> & ->)]]
    | H : apply_updates ?d ?t ?v ?y ?i = (_, _, ?evs) |- _ =>
        let He := fresh "He" in
        pose proof (saves_edits _ (apply_updates_edits d t v y i)) as He;
        rewrite H in He; simpl in He; clear H
    end;
    try discriminate;
    try (apply checkpoint_checkpointed; simpl;
         rewrite ?saves_app; simpl; rewrite ?app_nil_r; by repeat
           match goal with H : saves _ = [] |- _ => rewrite H, ?app_nil_r; clear H end);
    try (eapply checkpointed_frame; [exact Hinv|simpl..]; try done;
         rewrite ?saves_app; simpl; by rewrite ?app_nil_r).
Qed.

Lemma process_items_checkpointed (dry_run : bool) (items : list PlexItem)
    (st : run_state) :
  checkpointed st → checkpointed (snd (steps dry_run items st)).
Proof.
  revert st. induction items as [|x items IH]; intros st Hinv; simpl; [done|].
  pose proof (process_item_checkpointed dry_run x st Hinv) as H1.
  destruct (step dry_run x st) as [[o x'] st1]. specialize (IH st1 H1).
  by destruct (steps dry_run items st1) as [[??]?].
Qed.

Lemma process_items_counters (dry_run : bool) (items : list PlexItem) (st : run_state) :
  let '(os, _, st') := steps dry_run items st in
  failed_count st' = failed_count st + count_if counts_failed os
  ∧ processed_count st' = processed_count st + count_if counts_processed os
  ∧ updated_count st' = updated_count st + count_if counts_updated os.
Proof.
  revert st. induction items as [|x items IH]; intros st; simpl; [lia|].
  pose proof (process_item_counters dry_run x st) as H1.
  destruct (step dry_run x st) as [[o x'] st1]. specialize (IH st1).
  destruct (steps dry_run items st1) as [[os ?] st2]. simpl.
  unfold b2n in H1. lia.
Qed.

(** C1 (as the code has it). After every prefix of the items the cache has
    been saved once for every ten items counted as processed, those that got
    their metadata and reached the end of the loop body, a raised edit
    included; an item that fails earlier does not advance the count.  When
    the count stands at a positive multiple of ten, the last save holds the
    cache as it is at that point. *)
Theorem C1_checkpoint_every_ten_processed (dry_run : bool)
    (pre post : list PlexItem) (loaded : cache_t) :
  let mid := snd (steps dry_run pre (initial loaded)) in
  snd (steps dry_run (pre ++ post) (initial loaded)) = snd (steps dry_run post mid)
  ∧ processed_count mid
    = count_if counts_processed (fst (fst (steps dry_run pre (initial loaded))))
  ∧ cache_saves mid = processed_count mid / 10
  ∧ length (saves (trace mid)) = cache_saves mid
  ∧ (0 < processed_count mid → processed_count mid mod 10 = 0 →
     last (saves (trace mid)) = Some (cache mid)).
Proof.
  intros mid. split_and!.
  - rewrite process_items_app. subst mid.
    destruct (steps dry_run pre (initial loaded)) as [[??]?]. simpl.
    by destruct (steps dry_run post _) as [[??]?].
  - pose proof (process_items_counters dry_run pre (initial loaded)) as H.
    subst mid. destruct (steps dry_run pre (initial loaded)) as [[??]?].
    simpl in *. lia.
  - apply (process_items_checkpointed dry_run pre (initial loaded)).
    split_and!; [done..|]. simpl. lia.
  - apply (process_items_checkpointed dry_run pre (initial loaded)).
    split_and!; [done..|]. simpl. lia.
  - apply (process_items_checkpointed dry_run pre (initial loaded)).
    split_and!; [done..|]. simpl. lia.
Qed.

Lemma edits_keep_flags (item item' : PlexItem) :
  (∃ t, editTitle t item = Some item') ∨ (∃ t, editSummary t item = Some item')
  ∨ (∃ d, editOriginallyAvailable d item = Some item') →
  editTitle_raises item' = editTitle_raises item
  ∧ editSummary_raises item' = editSummary_raises item
  ∧ editOriginallyAvailable_raises item' = editOriginallyAvailable_raises item
  ∧ media item' = media item.
Proof.
  unfold editTitle, editSummary, editOriginallyAvailable.
  intros [[t H]|[[t H]|[d H]]];
    [destruct (editTitle_raises item) eqn:E
    |destruct (editSummary_raises item) eqn:E
    |destruct (editOriginallyAvailable_raises item) eqn:E];
    simplify_eq; simpl; by rewrite ?E.
Qed.
















(** *** Requests to the provider *)

Lemma checkpoint_frame (was_cached : bool) (st : run_state) :
  cache (checkpoint was_cached st) = cache st
  ∧ ∀ video_id, count_if (is_request video_id) (trace (checkpoint was_cached st))
                = count_if (is_request video_id) (trace st).
Proof.
  unfold checkpoint. cbn [incr_processed processed_count].
  destruct (_ =? 0), was_cached; simpl; (split; [done|]); intros video_id;
    rewrite ?count_if_app; simpl; lia.
Qed.

Lemma edits_no_request (video_id : string) (evs : list event) :
  Forall (λ e, is_edit e = true) evs → count_if (is_request video_id) evs = 0.
Proof. induction 1 as [|e evs He _ IH]; [done|]. simpl. rewrite IH. by destruct e. Qed.

(** After the metadata stage the body of the loop neither writes to the
    cache nor calls the provider. *)
Lemma process_item_resolve_frame (dry_run : bool) (item : PlexItem) (st : run_state) :
  let st' := snd (step dry_run item st) in
  (cache st' = cache st
   ∧ ∀ i, count_if (is_request i) (trace st') = count_if (is_request i) (trace st))
  ∨ ∃ video_id, let r := snd (resolve youtube_service video_id st) in
      cache st' = cache r
      ∧ ∀ i, count_if (is_request i) (trace st') = count_if (is_request i) (trace r).
Proof.
  step_cases; try (by left);
    right;
    match goal with H : resolve _ ?i _ = _ |- _ => exists i; rewrite H end;
    repeat match goal with
    | H : apply_updates ?d ?t ?v ?y ?i = (_, _, ?evs) |- _ =>
        let He := fresh "He" in
        pose proof (apply_updates_edits d t v y i) as He;
        rewrite H in He; simpl in He; clear H
    | |- context [checkpoint ?b ?s] =>
        let Hc := fresh "Hc" in
        destruct (checkpoint_frame b s) as [Hc ?]; rewrite Hc
    end;
    simpl; (split; [done|]); intros i;
    repeat match goal with
    | H : ∀ _, count_if _ (trace (checkpoint _ _)) = _ |- _ => rewrite H; clear H
    end;
    simpl; rewrite ?count_if_app;
    repeat match goal with
    | He : Forall _ ?l |- context [count_if (is_request ?i) ?l] =>
        rewrite (edits_no_request i l He)
    end; lia.
Qed.



(** *** The decision *)

(** Where the decision of an item comes from. *)
Lemma process_item_decided (dry_run : bool) (item : PlexItem) (st : run_state)
    (d : decision) :
  decision_of (fst (fst (step dry_run item st))) = Some d →
  ∃ file_path youtube_id md channel_name video_title,
    media item = Some file_path
    ∧ fst (extract_youtube_id file_path) = Some youtube_id
    ∧ fst (resolve youtube_service youtube_id st) = Some md
    ∧ md !! "channel_name" = Some channel_name
    ∧ md !! "title" = Some video_title
    ∧ d = detect item (create_new_title channel_name video_title)
            (get_default md "description")
            (parse_youtube_date fromisoformat (get_default md "published_at")).
Proof.
  step_cases; intros [= <-];
    match goal with H : resolve _ _ _ = (?m, _) |- _ =>
      destruct m as [md|]; [|done]; eexists _, _, md, _, _; rewrite H
    end; by split_and!.
Qed.

Lemma replace_no_Z (s : string) : no_Z s → Str.replace "Z"%char "+00:00" s = s.
Proof.
  unfold no_Z. induction s as [|a s IH]; simpl; intros H; [done|].
  inversion_clear H as [|?? Ha Hs].
  destruct (Ascii.eqb_spec a "Z"%char); [done|]. by rewrite IH.
Qed.

Lemma endswith_no_Z (s : string) : no_Z s → Str.endswith_char "Z"%char s = false.
Proof.
  unfold no_Z. induction s as [|a s IH]; simpl; intros H; [done|].
  inversion_clear H as [|?? Ha Hs]. destruct s as [|b s]; [|by apply IH].
  by apply Ascii.eqb_neq.
Qed.

Lemma endswith_snoc (s : string) (c : ascii) :
  Str.endswith_char c (s +:+ String c EmptyString) = true
  ∧ Str.drop_last (s +:+ String c EmptyString) = s.
Proof.
  induction s as [|a s [IH1 IH2]].
  - rewrite append_nil_l. simpl. by rewrite Ascii.eqb_refl.
  - rewrite append_cons. simpl.
    destruct (s +:+ String c EmptyString) as [|b r] eqn:E.
    + by destruct s.
    + by rewrite IH1, IH2.
Qed.

Lemma no_Z_append (s r : string) : no_Z s → no_Z r → no_Z (s +:+ r).
Proof. unfold no_Z. rewrite chars_append. apply Forall_app_2. Qed.

(** C3 (as the code has it). The date flag is false when [published_at] is
    empty or [datetime.fromisoformat] rejects it; otherwise it is true when the
    item has no date, and else it says whether the date of the timestamp, read
    as written in its own offset, differs from the date of the item.  A
    trailing Z is read as the offset +00:00; nothing converts a timestamp with
    another offset to UTC. *)
Theorem C3_date_changed_as_written (dry_run : bool) (item : PlexItem)
    (st : run_state) :
  (∀ new_title video_description published_at,
     date_changed (detect item new_title video_description
                     (parse_youtube_date fromisoformat published_at))
     = date_changed_spec dt_date (parse_youtube_date fromisoformat published_at)
         (dt_date <$> originallyAvailableAt item))
  ∧ parse_youtube_date fromisoformat EmptyString = None
  ∧ (∀ s, s ≠ EmptyString → no_Z s →
          parse_youtube_date fromisoformat s = fromisoformat s)
  ∧ (∀ s, no_Z s →
          parse_youtube_date fromisoformat (s +:+ "Z") = fromisoformat (s +:+ "+00:00"))
  ∧ (∀ d, decision_of (fst (fst (step dry_run item st))) = Some d →
       ∃ file_path youtube_id md,
         media item = Some file_path
         ∧ fst (extract_youtube_id file_path) = Some youtube_id
         ∧ fst (resolve youtube_service youtube_id st) = Some md
         ∧ date_changed d
           = date_changed_spec dt_date
               (parse_youtube_date fromisoformat (get_default md "published_at"))
               (dt_date <$> originallyAvailableAt item)).
Proof.
  assert (Hdetect : ∀ new_title video_description published_at,
     date_changed (detect item new_title video_description
                     (parse_youtube_date fromisoformat published_at))
     = date_changed_spec dt_date (parse_youtube_date fromisoformat published_at)
         (dt_date <$> originallyAvailableAt item)).
  { intros. unfold detect, date_changed_spec. simpl.
    destruct (parse_youtube_date _ _); [|done].
    by destruct (originallyAvailableAt item). }
  split_and!.
  - exact Hdetect.
  - reflexivity.
  - intros s Hne Hs. unfold parse_youtube_date. destruct s as [|a s]; [done|].
    by rewrite endswith_no_Z, replace_no_Z.
  - intros s Hs. unfold parse_youtube_date.
    destruct (endswith_snoc s "Z"%char) as [He Hd].
    destruct (s +:+ "Z") as [|a r] eqn:E; [by destruct s|].
    rewrite He, Hd. rewrite replace_no_Z; [done|].
    apply no_Z_append; [done|]. by repeat constructor.
  - intros d Hd.
    apply process_item_decided in Hd as (fp & id & md & ch & ti & ? & ? & ? & _ & _ & ->).
    exists fp, id, md. split_and!; [done..|]. apply Hdetect.
Qed.

(** *** Running twice *)

Lemma resolve_resolved (video_id : string) (st : run_state) :
  fst (resolve youtube_service video_id st) = resolved youtube_service (cache st) video_id.
Proof.
  unfold resolve, resolved, get_youtube_metadata.
  destruct (truthy (get_cached_metadata (cache st) video_id)); [done|].
  by destruct (youtube_service video_id) as [[|[v|] rest]| |].
Qed.

Lemma agree_refl (c : cache_t) : agree youtube_service c c.
Proof. by intros id. Qed.

Lemma agree_sym (c c' : cache_t) :
  agree youtube_service c c' → agree youtube_service c' c.
Proof. intros H id. by rewrite H. Qed.

Lemma agree_trans (c1 c2 c3 : cache_t) :
  agree youtube_service c1 c2 → agree youtube_service c2 c3 →
  agree youtube_service c1 c3.
Proof. intros H1 H2 id. by rewrite H1, H2. Qed.

Lemma resolve_agree (video_id : string) (st : run_state) :
  agree youtube_service (cache st) (cache (snd (resolve youtube_service video_id st))).
Proof.
  destruct (resolve youtube_service video_id st) as [md r] eqn:Hres. simpl.
  apply resolve_facts in Hres
    as [(? & -> & ->)|[(Hmiss & v & rest & Hs & -> & ->)|(? & ? & -> & ->)]];
    simpl; try apply agree_refl.
  intros i. unfold resolved, get_youtube_metadata, get_cached_metadata.
  destruct (decide (video_id = i)) as [<-|Hne].
  - rewrite lookup_insert_eq, Hmiss, Hs, snippet_metadata_truthy. done.
  - rewrite lookup_insert_ne by done. destruct (truthy (cache st !! i)); [done|].
    by destruct (youtube_service i) as [[|[?|] ?]| |].
Qed.

Lemma process_item_agree (dry_run : bool) (item : PlexItem) (st : run_state) :
  agree youtube_service (cache st) (cache (snd (step dry_run item st))).
Proof.
  destruct (process_item_resolve_frame dry_run item st) as [[-> _]|(i & -> & _)].
  - apply agree_refl.
  - apply resolve_agree.
Qed.

Lemma process_items_agree (dry_run : bool) (items : list PlexItem) (st : run_state) :
  agree youtube_service (cache st) (cache (snd (steps dry_run items st))).
Proof.
  revert st. induction items as [|x items IH]; intros st; simpl; [apply agree_refl|].
  pose proof (process_item_agree dry_run x st) as H1.
  destruct (step dry_run x st) as [[o x'] st1]. specialize (IH st1).
  destruct (steps dry_run items st1) as [[??]?]. simpl in *.
  by eapply agree_trans.
Qed.

Lemma item_view_agree (dry_run : bool) (item : PlexItem) (c c' : cache_t) :
  agree youtube_service c c' →
  item_view fromisoformat youtube_service dry_run item c
  = item_view fromisoformat youtube_service dry_run item c'.
Proof.
  intros H. unfold item_view.
  destruct (media item) as [fp|]; [|done].
  destruct (fst (extract_youtube_id fp)) as [id|]; [|done]. by rewrite (H id).
Qed.

(** The body of the loop seen through [item_view]. *)
Lemma process_item_view (dry_run : bool) (item : PlexItem) (st : run_state) :
  fst (step dry_run item st)
  = fst (item_view fromisoformat youtube_service dry_run item (cache st))
  ∧ count_if is_edit (trace (snd (step dry_run item st)))
    = count_if is_edit (trace st)
      + count_if is_edit
          (snd (item_view fromisoformat youtube_service dry_run item (cache st))).
Proof.
  unfold item_view, process_item.
  destruct (media item) as [fp|]; [|simpl; split; [done|lia]].
  destruct (fst (extract_youtube_id fp)) as [id|]; [|simpl; split; [done|lia]].
  rewrite <-resolve_resolved.
  assert (Hr : count_if is_edit (trace (snd (resolve youtube_service id st)))
               = count_if is_edit (trace st)).
  { destruct (resolve youtube_service id st) as [md r] eqn:Hres. simpl.
    apply resolve_facts in Hres
      as [(? & -> & ->)|[(? & v & rest & ? & -> & ->)|(? & ? & -> & ->)]];
      simpl; rewrite ?count_if_app; simpl; lia. }
  assert (Hc : ∀ b s, count_if is_edit (trace (checkpoint b s)) = count_if is_edit (trace s)).
  { intros b s. unfold checkpoint. cbn [incr_processed processed_count].
    destruct (_ =? 0), b; simpl; rewrite ?count_if_app; simpl; lia. }
  destruct (resolve youtube_service id st) as [md r]. simpl in *.
  repeat step_case; rewrite ?Hc; simpl; rewrite ?count_if_app; (split; [done|lia]).
Qed.

Lemma any_changed_false (d : decision) :
  any_changed d = false →
  title_changed d = false ∧ summary_changed d = false ∧ date_changed d = false.
Proof. destruct d as [[] [] []]; simpl; by intros. Qed.

(** The item the edits leave when the server accepts them all. *)
Lemma apply_updates_accepted (d : decision) (t v : string) (y : option datetime)
    (item : PlexItem) :
  edits_accepted item →
  snd (fst (apply_updates d t v y item))
  = Item (if title_changed d then t else title item) (media item)
      (if summary_changed d && nonempty v then Some v else summary item)
      (match y with
       | Some dt =>
           if date_changed d then Some (midnight (dt_date dt))
           else originallyAvailableAt item
       | None => originallyAvailableAt item
       end) false false false.
Proof.
  destruct item as [ti me su oa e1 e2 e3]. intros (H1 & H2 & H3). simpl in *. subst.
  unfold apply_updates, attempt, editTitle, editSummary, editOriginallyAvailable.
  destruct d as [[] [] []], y, (nonempty v); reflexivity.
Qed.

(** A decision with nothing due makes no call. *)
Lemma apply_updates_nothing (d : decision) (t v : string) (y : option datetime)
    (item : PlexItem) :
  title_changed d = false → summary_changed d && nonempty v = false →
  date_changed d = false →
  apply_updates d t v y item = (Some [], item, []).
Proof.
  destruct d as [tc sc dc]. simpl. intros -> Hs ->.
  unfold apply_updates, attempt. simpl. rewrite Hs. by destruct y.
Qed.

(** Once the edits of a decision have gone through, the same metadata asks
    for no further edit. *)
Lemma apply_updates_settles (item : PlexItem) (t v : string) (y : option datetime) :
  edits_accepted item →
  let d1 := detect item t v y in
  let item1 := if any_changed d1 then snd (fst (apply_updates d1 t v y item)) else item in
  let d2 := detect item1 t v y in
  title_changed d2 = false ∧ date_changed d2 = false
  ∧ (summary_changed d2 = true →
     v = EmptyString ∧ default EmptyString (summary item1) ≠ EmptyString)
  ∧ apply_updates d2 t v y item1 = (Some [], item1, [])
  ∧ edits_accepted item1 ∧ media item1 = media item.
Proof.
  intros Hacc. cbv zeta.
  destruct (any_changed (detect item t v y)) eqn:Hany.
  - rewrite (apply_updates_accepted _ t v y item Hacc). clear Hany.
    set (d1 := detect item t v y).
    set (item1 := Item (if title_changed d1 then t else title item) (media item)
                    _ _ false false false).
    assert (Ht2 : title_changed (detect item1 t v y) = false).
    { subst item1 d1. destruct item as [ti me su oa e1 e2 e3]. unfold detect. cbn [title summary originallyAvailableAt title_changed summary_changed date_changed].
      destruct (decide (ti = t)) as [->|Hne].
      - rewrite (bool_decide_eq_true_2 (t = t)) by done. cbn [negb andb].
        rewrite ?bool_decide_eq_true_2 by done; done.
      - rewrite (bool_decide_eq_false_2 (ti = t)) by done. cbn [negb andb].
        rewrite ?bool_decide_eq_true_2 by done; done. }
    assert (Hd2 : date_changed (detect item1 t v y) = false).
    { subst item1 d1. destruct item as [ti me su oa e1 e2 e3]. unfold detect, date_ne. cbn [title summary originallyAvailableAt title_changed summary_changed date_changed].
      destruct y as [dt|]; [|done]. destruct oa as [cur|]; cbn [dt_date midnight negb].
      - destruct (decide (dt_date dt = dt_date cur)) as [He|Hne].
        + rewrite (bool_decide_eq_true_2 _ He). cbn [negb andb].
          rewrite ?(bool_decide_eq_true_2 _ He); done.
        + rewrite (bool_decide_eq_false_2 _ Hne). cbn [negb andb].
          rewrite ?bool_decide_eq_true_2 by done; done.
      - rewrite ?bool_decide_eq_true_2 by done; done. }
    assert (Hs2 : summary_changed (detect item1 t v y) = true →
                  v = EmptyString ∧ default EmptyString (summary item1) ≠ EmptyString).
    { subst item1 d1. destruct item as [ti me su oa e1 e2 e3]. unfold detect. cbn [title summary originallyAvailableAt title_changed summary_changed date_changed].
      destruct (decide (default EmptyString su = v)) as [He|Hne].
      - rewrite (bool_decide_eq_true_2 _ He). cbn [negb andb].
        rewrite ?(bool_decide_eq_true_2 _ He); done.
      - rewrite (bool_decide_eq_false_2 _ Hne). cbn [negb andb].
        destruct v as [|a v]; cbn [nonempty andb negb from_option id summary].
        + rewrite ?(bool_decide_eq_false_2 _ Hne); done.
        + rewrite ?bool_decide_eq_true_2 by done; done. }
    split_and!; [done..| |done|done].
    apply apply_updates_nothing; [done| |done].
    destruct (summary_changed (detect item1 t v y)); [|done].
    by destruct (Hs2 eq_refl) as [-> _].
  - apply any_changed_false in Hany as (Ht & Hs & Hd).
    split_and!; [done|done|congruence| |done|done].
    apply apply_updates_nothing; [done| |done]. by rewrite Hs.
Qed.

(** An item whose edits went through is settled when it is looked at again
    with the same metadata. *)
Lemma item_view_rerun (item : PlexItem) (c : cache_t) :
  edits_accepted item →
  let item1 := snd (fst (item_view fromisoformat youtube_service false item c)) in
  let '(o2, item2, evs2) := item_view fromisoformat youtube_service false item1 c in
  item2 = item1 ∧ evs2 = [] ∧ counts_updated o2 = false
  ∧ settled youtube_service c item1 o2 ∧ edits_accepted item1.
Proof.
  intros Hacc. cbv zeta. unfold item_view at 2.
  destruct (media item) as [fp|] eqn:Hm;
    [|simpl; unfold item_view; rewrite Hm; simpl; by split_and!].
  destruct (fst (extract_youtube_id fp)) as [vid|] eqn:He;
    [|simpl; unfold item_view; rewrite Hm, He; simpl; by split_and!].
  cbv zeta.
  destruct (truthy (resolved youtube_service c vid)) eqn:Ht;
    [|simpl; unfold item_view; rewrite Hm, He; cbv zeta; rewrite Ht; simpl; by split_and!].
  cbn [negb].
  destruct (resolved youtube_service c vid) as [md|] eqn:Hmd; [|done]. cbn [from_option id].
  destruct (md !! "channel_name") as [ch|] eqn:Hch;
    [|cbn [fst snd]; unfold item_view; rewrite Hm, He; cbv zeta; rewrite Hmd, Ht;
      cbn [negb from_option id]; rewrite Hch; by split_and!].
  destruct (md !! "title") as [ti|] eqn:Hti;
    [|cbn [fst snd]; unfold item_view; rewrite Hm, He; cbv zeta; rewrite Hmd, Ht;
      cbn [negb from_option id]; rewrite Hch, Hti; by split_and!].
  set (t := create_new_title ch ti). set (v := get_default md "description").
  set (y := parse_youtube_date fromisoformat (get_default md "published_at")).
  pose proof (apply_updates_settles item t v y Hacc) as Hs. cbv zeta in Hs.
  cbn [negb andb].
  assert (Hitem1 :
    snd (fst (if any_changed (detect item t v y)
              then let '(changes, item', evs) := apply_updates (detect item t v y) t v y item in
                   (Applied (detect item t v y) changes, item', evs)
              else (Skipped (detect item t v y), item, [])))
    = if any_changed (detect item t v y)
      then snd (fst (apply_updates (detect item t v y) t v y item)) else item).
  { destruct (any_changed _); [|done]. by destruct (apply_updates _ _ _ _ _) as [[??]?]. }
  rewrite Hitem1.
  set (item1 := if any_changed (detect item t v y)
                then snd (fst (apply_updates (detect item t v y) t v y item)) else item)
    in *.
  destruct Hs as (Ht2 & Hd2 & Hs2 & Hap2 & Hacc1 & Hm1).
  unfold item_view. rewrite Hm1, Hm, He. cbv zeta. rewrite Hmd, Ht. cbn [negb from_option id].
  rewrite Hch, Hti. fold t v y. cbn [negb andb]. rewrite ?Hitem1.
  destruct (any_changed (detect item1 t v y)) eqn:Hany2.
  - rewrite Hap2. split_and!; [done..| |done].
    intros d [= <-]. split_and!; [done..|]. intros Hsum.
    destruct (Hs2 Hsum) as [Hv Hsu]. split_and!; [done..|].
    exists fp, vid, md. split_and!; [congruence|done..].
  - split_and!; [done..| |done].
    intros d [= <-]. apply any_changed_false in Hany2 as (? & Hsum & ?).
    split_and!; [done..|]. intros ?. congruence.
Qed.

Lemma process_items_rerun (items : list PlexItem) (s1 s2 : run_state) (c : cache_t) :
  Forall edits_accepted items →
  agree youtube_service (cache s1) c → agree youtube_service (cache s2) c →
  let items1 := snd (fst (steps false items s1)) in
  let '(os2, items2, s2') := steps false items1 s2 in
  items2 = items1
  ∧ updated_count s2' = updated_count s2
  ∧ count_if is_edit (trace s2') = count_if is_edit (trace s2)
  ∧ Forall2 (settled youtube_service c) items1 os2.
Proof.
  intros Hacc. revert s1 s2.
  induction Hacc as [|x items Hx _ IH]; intros s1 s2 H1 H2; simpl; [done|].
  pose proof (process_item_view false x s1) as [Hv1 _].
  pose proof (process_item_agree false x s1) as Ha1.
  rewrite (item_view_agree false x _ _ H1) in Hv1.
  destruct (step false x s1) as [[o1 x1] s1a]. simpl in Hv1, Ha1.
  specialize (IH s1a). destruct (steps false items s1a) as [[os1 items1] s1b].
  simpl in *.
  pose proof (item_view_rerun x c Hx) as Hre. cbv zeta in Hre.
  rewrite <-Hv1 in Hre. simpl in Hre.
  pose proof (process_item_view false x1 s2) as [Hv2 He2].
  pose proof (process_item_agree false x1 s2) as Ha2.
  pose proof (process_item_counters false x1 s2) as Hc2.
  rewrite (item_view_agree false x1 _ _ H2) in Hv2, He2.
  destruct (item_view fromisoformat youtube_service false x1 c) as [[o2 x2] evs2].
  destruct Hre as (-> & -> & Hup & Hset & _).
  destruct (step false x1 s2) as [[o2' x2'] s2a]. simpl in *.
  injection Hv2 as -> ->. destruct Hc2 as (_ & _ & Hu2). rewrite Hup in Hu2.
  specialize (IH s2a).
  destruct (steps false items1 s2a) as [[os2 items2] s2b].
  destruct IH as (-> & Hu & He & Hall).
  - eapply agree_trans; [apply agree_sym, Ha1|done].
  - eapply agree_trans; [apply agree_sym, Ha2|done].
  - split_and!; [done| |lia|by constructor]. simpl in Hu2. lia.
Qed.

(** C4 (as the code has it). When every edit of a live run is accepted, a
    second live run over the library as the first left it, with the cache the
    first run saved or the one it started from, makes no edit call and counts
    no item as updated; every decision has the title flag and the date flag
    false.  The summary flag is false too unless the description is empty while
    the item has a summary: an empty description is never written, so that
    flag stays up on every run. *)
Theorem C4_second_run_changes_nothing (items : list PlexItem)
    (loaded loaded2 : cache_t) (verbose verbose2 : bool)
    (os1 : list outcome) (items1 : list PlexItem) (st1 : run_state) :
  Forall edits_accepted items →
  run (Some items) youtube_service loaded false verbose = Summary os1 items1 st1 →
  loaded2 = cache st1 ∨ loaded2 = loaded →
  ∃ os2 st2,
    run (Some items1) youtube_service loaded2 false verbose2 = Summary os2 items1 st2
    ∧ updated_count st2 = 0
    ∧ count_if is_edit (trace st2) = 0
    ∧ Forall2 (settled youtube_service loaded2) items1 os2.
Proof.
  intros Hacc Hrun Hloaded. unfold process_library_items in Hrun.
  destruct items as [|x items]; [done|].
  pose proof (process_items_length false (x :: items) (initial loaded)) as [_ Hlen].
  pose proof (process_items_agree false (x :: items) (initial loaded)) as Hag.
  assert (Hre := λ H1 H2, process_items_rerun (x :: items) (initial loaded)
                            (initial loaded2) loaded2 Hacc H1 H2).
  destruct (steps false (x :: items) (initial loaded)) as [[os its] st] eqn:Hsteps.
  injection Hrun as <- <- <-. simpl in Hlen, Hag, Hre.
  assert (H1 : agree youtube_service loaded loaded2).
  { destruct Hloaded as [->| ->]; [exact Hag|apply agree_refl]. }
  specialize (Hre H1 (agree_refl _)).
  unfold process_library_items.
  destruct its as [|y its]; [done|].
  destruct (steps false (y :: its) (initial loaded2)) as [[os2 its2] st2].
  destruct Hre as (-> & Hu & He & Hall). exists os2, (save_cache st2).
  split_and!; [done|done| |done].
  simpl. rewrite count_if_app. simpl in *. lia.
Qed.


(** *** Further properties of the loop *)

Lemma resolve_cache (video_id : string) (st : run_state) :
  cache (snd (resolve youtube_service video_id st))
  = snd (fst (get_youtube_metadata youtube_service video_id (cache st))).
Proof.
  unfold resolve, get_youtube_metadata.
  destruct (truthy (get_cached_metadata (cache st) video_id)); [done|].
  destruct (youtube_service video_id) as [[|[v|] rest]| |]; cbv zeta;
    rewrite ?snippet_metadata_truthy; reflexivity.
Qed.

(** The cache after an item is the cache a lookup of the item's identifier
    leaves, and the cache before when the item has no identifier. *)
Lemma process_item_lookup (dry_run : bool) (item : PlexItem) (st : run_state) :
  cache (snd (step dry_run item st))
  = match media item with
    | Some file_path =>
        match fst (extract_youtube_id file_path) with
        | Some youtube_id =>
            snd (fst (get_youtube_metadata youtube_service youtube_id (cache st)))
        | None => cache st
        end
    | None => cache st
    end.
Proof.
  destruct (media item) as [fp|] eqn:Hm;
    [|unfold process_item; by rewrite Hm].
  destruct (fst (extract_youtube_id fp)) as [vid|] eqn:He;
    [|unfold process_item; by rewrite Hm, He].
  rewrite <-resolve_cache. unfold process_item. rewrite Hm, He.
  destruct (resolve youtube_service vid st) as [md r]. cbn [fst snd].
  repeat step_case; by rewrite ?(proj1 (checkpoint_frame _ _)).
Qed.

(** X12. The cache at the end of the loop depends only on the files of the
    items, the provider and the cache at the start: two runs over items with
    the same files in the same order end with the same cache, whatever the
    mode of each, the counters they start from and the fate of the edits. *)
Theorem final_cache_depends_on_files (d1 d2 : bool) (items1 items2 : list PlexItem)
    (s1 s2 : run_state) :
  media <$> items1 = media <$> items2 → cache s1 = cache s2 →
  cache (snd (steps d1 items1 s1)) = cache (snd (steps d2 items2 s2)).
Proof.
  revert items2 s1 s2.
  induction items1 as [|x1 items1 IH]; intros [|x2 items2] s1 s2 Hm Hc;
    try discriminate; [done|].
  injection Hm as Hx Hm. simpl.
  pose proof (process_item_lookup d1 x1 s1) as H1.
  pose proof (process_item_lookup d2 x2 s2) as H2.
  rewrite Hx, Hc, <-H2 in H1.
  destruct (step d1 x1 s1) as [[o1 y1] s1']. destruct (step d2 x2 s2) as [[o2 y2] s2'].
  specialize (IH items2 s1' s2' Hm H1).
  destruct (steps d1 items1 s1') as [[os1 its1] s1''].
  destruct (steps d2 items2 s2') as [[os2 its2] s2'']. done.
Qed.




(** What the edits report when the server accepts them all. *)
Lemma apply_updates_would_update (d : decision) (t v : string) (y : option datetime)
    (item : PlexItem) :
  edits_accepted item →
  fst (fst (apply_updates d t v y item)) = Some (would_update d v y).
Proof.
  destruct item as [ti me su oa e1 e2 e3]. intros (H1 & H2 & H3). simpl in *. subst.
  unfold apply_updates, would_update, attempt, editTitle, editSummary,
    editOriginallyAvailable.
  destruct d as [[] [] []], y, (nonempty v); reflexivity.
Qed.

Lemma item_view_previews (item : PlexItem) (c : cache_t) :
  edits_accepted item →
  previews (fst (fst (item_view fromisoformat youtube_service true item c)))
    (fst (fst (item_view fromisoformat youtube_service false item c))).
Proof.
  intros Hacc. unfold item_view.
  destruct (media item) as [fp|]; [|done].
  destruct (fst (extract_youtube_id fp)) as [vid|]; [|done]. cbv zeta.
  destruct (negb (truthy _)); [done|].
  destruct (_ !! "channel_name"); [|done]. destruct (_ !! "title"); [|done].
  cbn [negb andb]. destruct (any_changed _); [|done].
  match goal with |- context [apply_updates ?d ?t ?v ?y ?i] =>
    pose proof (apply_updates_would_update d t v y i Hacc) as Hw;
    destruct (apply_updates d t v y i) as [[cs i'] evs]
  end.
  simpl in *. by rewrite Hw.
Qed.

(** X14. What a dry run reports is what a live run from the same cache does
    when the server accepts every edit: item by item the same decision and
    the same list of changes, the other outcomes alike, and the same cache at
    the end. *)
Theorem dry_run_previews_live (items : list PlexItem) (loaded : cache_t) :
  Forall edits_accepted items →
  Forall2 previews
    (fst (fst (steps true items (initial loaded))))
    (fst (fst (steps false items (initial loaded))))
  ∧ cache (snd (steps true items (initial loaded)))
    = cache (snd (steps false items (initial loaded))).
Proof.
  intros Hacc.
  assert (Hgen : ∀ s1 s2, cache s1 = cache s2 →
    Forall2 previews (fst (fst (steps true items s1))) (fst (fst (steps false items s2)))
    ∧ cache (snd (steps true items s1)) = cache (snd (steps false items s2))).
  { induction Hacc as [|x items Hx _ IH]; intros s1 s2 Hc; simpl; [by split|].
    pose proof (process_item_view true x s1) as [Hv1 _].
    pose proof (process_item_view false x s2) as [Hv2 _].
    pose proof (process_item_lookup true x s1) as Hc1.
    pose proof (process_item_lookup false x s2) as Hc2.
    pose proof (item_view_previews x (cache s1) Hx) as Hp.
    rewrite <-Hv1 in Hp. rewrite Hc in Hp. rewrite <-Hv2 in Hp.
    rewrite Hc, <-Hc2 in Hc1.
    destruct (step true x s1) as [[o1 x1] s1']. destruct (step false x s2) as [[o2 x2] s2'].
    specialize (IH s1' s2' Hc1).
    destruct (steps true items s1') as [[os1 its1] s1''].
    destruct (steps false items s2') as [[os2 its2] s2'']. simpl in *.
    destruct IH as [IH1 IH2]. split; [by constructor|done]. }
  by apply Hgen.
Qed.

Lemma get_youtube_metadata_entry (video_id i : string) (c : cache_t) :
  let c' := snd (fst (get_youtube_metadata youtube_service video_id c)) in
  c' !! i = c !! i
  ∨ (truthy (c !! i) = false
     ∧ ∃ v rest, youtube_service i = Response (Some v :: rest)
                 ∧ c' !! i = Some (snippet_metadata v)).
Proof.
  unfold get_youtube_metadata, get_cached_metadata, cache_metadata.
  destruct (truthy (c !! video_id)) eqn:Hc; [by left|].
  destruct (youtube_service video_id) as [[|[v|] rest]| |] eqn:Hs; simpl;
    try (by left).
  destruct (decide (video_id = i)) as [<-|Hne].
  - right. split; [done|]. exists v, rest. by rewrite lookup_insert_eq.
  - left. by rewrite lookup_insert_ne.
Qed.

(** X15. A run never removes or overwrites a cache entry that holds a
    record: at the end every identifier has the entry it had in the loaded
    cache, or, when that was missing or empty, possibly the record built from
    the provider's response for it. *)
Theorem cache_only_grows (dry_run : bool) (items : list PlexItem) (st : run_state)
    (i : string) :
  let final := snd (steps dry_run items st) in
  (truthy (cache st !! i) = true → cache final !! i = cache st !! i)
  ∧ (cache final !! i = cache st !! i
     ∨ (truthy (cache st !! i) = false
        ∧ ∃ v rest, youtube_service i = Response (Some v :: rest)
                    ∧ cache final !! i = Some (snippet_metadata v))).
Proof.
  revert st. induction items as [|x items IH]; intros st; simpl; [by auto|].
  assert (Hx : cache (snd (step dry_run x st)) !! i = cache st !! i
               ∨ (truthy (cache st !! i) = false
                  ∧ ∃ v rest, youtube_service i = Response (Some v :: rest)
                      ∧ cache (snd (step dry_run x st)) !! i = Some (snippet_metadata v))).
  { rewrite process_item_lookup.
    destruct (media x) as [fp|]; [|by left].
    destruct (fst (extract_youtube_id fp)) as [vid|]; [|by left].
    apply get_youtube_metadata_entry. }
  destruct (step dry_run x st) as [[o x'] st1]. specialize (IH st1).
  destruct (steps dry_run items st1) as [[os its] st2]. simpl in *.
  destruct IH as [IH1 IH2].
  destruct Hx as [Hx|(Hmiss & v & rest & Hs & Hx)].
  - rewrite Hx in *. by split.
  - split; [congruence|]. right. split; [done|]. exists v, rest. split; [done|].
    rewrite IH1; [done|]. rewrite Hx. apply snippet_metadata_truthy.
Qed.

Lemma edits_count (f : event → bool) (evs : list event) :
  (∀ e, is_edit e = true → f e = false) →
  Forall (λ e, is_edit e = true) evs → count_if f evs = 0.
Proof.
  intros Hf. induction 1 as [|e evs He _ IH]; [done|]. simpl. by rewrite (Hf e He), IH.
Qed.

Lemma checkpoint_accounting (was_cached : bool) (st : run_state) :
  cache_hits (checkpoint was_cached st) = cache_hits st
  ∧ api_calls (checkpoint was_cached st) = api_calls st
  ∧ count_if is_any_request (trace (checkpoint was_cached st))
    = count_if is_any_request (trace st)
  ∧ count_if is_sleep (trace (checkpoint was_cached st))
    = count_if is_sleep (trace st) + b2n (negb was_cached).
Proof.
  unfold checkpoint. cbn [incr_processed processed_count].
  destruct (_ =? 0), was_cached; simpl; rewrite ?count_if_app; simpl;
    (split_and!; (done || lia)).
Qed.

Lemma process_item_accounting (dry_run : bool) (item : PlexItem) (st : run_state) :
  let '(o, _, st') := step dry_run item st in
  cache_hits st' + api_calls st'
  = cache_hits st + api_calls st + b2n (metadata_found o)
  ∧ count_if is_any_request (trace st') + api_calls st
    = count_if is_any_request (trace st) + api_calls st' + b2n (no_metadata o)
  ∧ count_if is_sleep (trace st') + api_calls st
    = count_if is_sleep (trace st) + api_calls st'.
Proof.
  step_cases; try (split_and!; lia);
    match goal with
    | H : resolve _ _ _ = _ |- _ =>
        apply resolve_facts in H
          as [(Hhit & -> & ->)|[(Hhit & v & rest & ? & -> & ->)|(Hhit & ? & -> & ->)]]
    end;
    repeat match goal with
    | H : apply_updates ?d ?t ?v ?y ?i = (_, _, ?evs) |- _ =>
        let He := fresh "He" in
        pose proof (apply_updates_edits d t v y i) as He;
        rewrite H in He; cbn [snd] in He; clear H;
        pose proof (edits_count is_sleep _ ltac:(by intros []) He);
        pose proof (edits_count is_any_request _ ltac:(by intros []) He)
    | H : truthy (Some (snippet_metadata _)) = false |- _ =>
        rewrite snippet_metadata_truthy in H; discriminate H
    | H : default ∅ (Some (snippet_metadata ?v)) !! "channel_name" = None |- _ =>
        cbn [from_option id] in H;
        rewrite (proj1 (snippet_metadata_keys v)) in H; discriminate H
    | H : default ∅ (Some (snippet_metadata ?v)) !! "title" = None |- _ =>
        cbn [from_option id] in H;
        rewrite (proj1 (proj2 (snippet_metadata_keys v))) in H; discriminate H
    end;
    try congruence; try discriminate;
    unfold get_cached_metadata; rewrite ?Hhit;
    repeat match goal with
    | |- context [checkpoint ?b ?s] =>
        let Hc := fresh "Hc" in
        pose proof (checkpoint_accounting b s) as Hc; cbn [b2n negb] in Hc;
        generalize dependent (checkpoint b s); intros
    end;
    cbn [incr_cache_hits incr_api_calls incr_failed incr_updated emit set_cache
         cache_hits api_calls trace b2n metadata_found no_metadata] in *;
    rewrite ?count_if_app in *; cbn [count_if is_any_request is_sleep] in *;
    try (split_and!; lia).
Qed.

Lemma process_items_accounting (dry_run : bool) (items : list PlexItem) (st : run_state) :
  let '(os, _, st') := steps dry_run items st in
  cache_hits st' + api_calls st'
  = cache_hits st + api_calls st + count_if metadata_found os
  ∧ count_if is_any_request (trace st') + api_calls st
    = count_if is_any_request (trace st) + api_calls st' + count_if no_metadata os
  ∧ count_if is_sleep (trace st') + api_calls st
    = count_if is_sleep (trace st) + api_calls st'.
Proof.
  revert st. induction items as [|x items IH]; intros st; simpl; [lia|].
  pose proof (process_item_accounting dry_run x st) as H1.
  destruct (step dry_run x st) as [[o x'] st1]. specialize (IH st1).
  destruct (steps dry_run items st1) as [[os its] st2]. simpl.
  unfold b2n in H1. destruct (metadata_found o), (no_metadata o); lia.
Qed.

(** X16. At the end of the loop the cache hits and the API calls together
    count the items that got their metadata: each such item is one or the
    other, and an item without media, identifier or metadata is neither. *)
Theorem hits_and_calls_count_resolved (dry_run : bool) (items : list PlexItem)
    (loaded : cache_t) :
  let '(os, _, st) := steps dry_run items (initial loaded) in
  cache_hits st + api_calls st = count_if metadata_found os
  ∧ cache_hits st + api_calls st ≤ length items.
Proof.
  pose proof (process_items_accounting dry_run items (initial loaded)) as H.
  pose proof (process_items_length dry_run items (initial loaded)) as [Hl _].
  destruct (steps dry_run items (initial loaded)) as [[os its] st]. simpl in *.
  pose proof (count_if_le metadata_found os). lia.
Qed.

(** X17. The requests sent to the provider are the API calls counted, one for
    each lookup that gave a record, plus one for each item that ended without
    metadata. *)
Theorem requests_are_calls_and_failures (dry_run : bool) (items : list PlexItem)
    (loaded : cache_t) :
  let '(os, _, st) := steps dry_run items (initial loaded) in
  count_if is_any_request (trace st) = api_calls st + count_if no_metadata os.
Proof.
  pose proof (process_items_accounting dry_run items (initial loaded)) as H.
  destruct (steps dry_run items (initial loaded)) as [[os its] st]. simpl in *. lia.
Qed.

(** X18. The loop sleeps once for each API call it counts: after an item whose
    metadata came from the provider, never after a cache hit and never after a
    lookup that gave nothing. *)
Theorem one_sleep_per_api_call (dry_run : bool) (items : list PlexItem)
    (loaded : cache_t) :
  let st := snd (steps dry_run items (initial loaded)) in
  count_if is_sleep (trace st) = api_calls st.
Proof.
  pose proof (process_items_accounting dry_run items (initial loaded)) as H.
  destruct (steps dry_run items (initial loaded)) as [[os its] st]. simpl in *. lia.
Qed.

(** X19. A run over a library that is not empty ends with a summary: one
    outcome and one item for each item of the library, a last save that holds
    the final cache as the very last thing done, and as many saves as one for
    every ten processed items plus the last one. *)
Theorem run_ends_with_save (x : PlexItem) (items : list PlexItem) (loaded : cache_t)
    (dry_run verbose : bool) :
  ∃ os items' st,
    run (Some (x :: items)) youtube_service loaded dry_run verbose = Summary os items' st
    ∧ length os = S (length items) ∧ length items' = S (length items)
    ∧ last (trace st) = Some (SaveCache (cache st))
    ∧ cache_saves st = processed_count st / 10 + 1
    ∧ length (saves (trace st)) = cache_saves st.
Proof.
  unfold process_library_items.
  pose proof (process_items_length dry_run (x :: items) (initial loaded)) as [Hl1 Hl2].
  pose proof (process_items_checkpointed dry_run (x :: items) (initial loaded)) as Hc.
  destruct (steps dry_run (x :: items) (initial loaded)) as [[os its] st].
  destruct Hc as (Hs & Hn & _); [split_and!; [done..|simpl; lia]|].
  exists os, its, (save_cache st). simpl in *.
  split_and!; [done..|apply last_snoc|lia|].
  rewrite saves_app, length_app. simpl. lia.
Qed.

Lemma resolved_keys (c : cache_t) (video_id : string) (md : metadata) :
  well_formed c → resolved youtube_service c video_id = Some md → md ≠ ∅ →
  is_Some (md !! "channel_name") ∧ is_Some (md !! "title").
Proof.
  intros Hwf. unfold resolved, get_youtube_metadata, get_cached_metadata.
  destruct (truthy (c !! video_id)); simpl.
  - intros Hc. by apply (Hwf video_id).
  - destruct (youtube_service video_id) as [[|[v|] rest]| |]; simpl; try done.
    intros [= <-] _. destruct (snippet_metadata_keys v) as (-> & -> & _). by split.
Qed.

Lemma get_youtube_metadata_well_formed (video_id : string) (c : cache_t) :
  well_formed c →
  well_formed (snd (fst (get_youtube_metadata youtube_service video_id c))).
Proof.
  intros Hwf. unfold get_youtube_metadata, get_cached_metadata, cache_metadata.
  destruct (truthy (c !! video_id)); [done|].
  destruct (youtube_service video_id) as [[|[v|] rest]| |]; simpl; try done.
  intros i md. destruct (decide (video_id = i)) as [<-|Hne].
  - rewrite lookup_insert_eq. intros [= <-] _.
    destruct (snippet_metadata_keys v) as (-> & -> & _). by split.
  - rewrite lookup_insert_ne by done. apply Hwf.
Qed.

Lemma process_item_well_formed (dry_run : bool) (item : PlexItem) (st : run_state) :
  well_formed (cache st) →
  fst (fst (step dry_run item st)) ≠ ItemError
  ∧ well_formed (cache (snd (step dry_run item st))).
Proof.
  intros Hwf. split.
  - rewrite (proj1 (process_item_view dry_run item st)). unfold item_view.
    destruct (media item) as [fp|]; [|done].
    destruct (fst (extract_youtube_id fp)) as [vid|]; [|done]. cbv zeta.
    destruct (truthy (resolved youtube_service (cache st) vid)) eqn:Ht; [|done].
    destruct (resolved youtube_service (cache st) vid) as [md|] eqn:Hmd; [|done].
    cbn [negb from_option id].
    destruct (resolved_keys _ _ _ Hwf Hmd) as [[ch ->] [ti ->]].
    { intros ->. by vm_compute in Ht. }
    destruct (negb dry_run && _); [by destruct (apply_updates _ _ _ _ _) as [[??]?]|].
    by destruct (dry_run && _).
  - rewrite process_item_lookup.
    destruct (media item) as [fp|]; [|done].
    destruct (fst (extract_youtube_id fp)) as [vid|]; [|done].
    by apply get_youtube_metadata_well_formed.
Qed.

(** X20. When every record of the loaded cache that is not empty names the
    channel and the title, no item of the run ends in the handler for
    unexpected errors, and the cache at the end is of the same kind: the
    records the run adds always name both. *)
Theorem well_formed_cache_no_item_error (dry_run : bool) (items : list PlexItem)
    (loaded : cache_t) :
  well_formed loaded →
  Forall (λ o, o ≠ ItemError) (fst (fst (steps dry_run items (initial loaded))))
  ∧ well_formed (cache (snd (steps dry_run items (initial loaded)))).
Proof.
  intros Hwf.
  assert (Hgen : ∀ st, well_formed (cache st) →
    Forall (λ o, o ≠ ItemError) (fst (fst (steps dry_run items st)))
    ∧ well_formed (cache (snd (steps dry_run items st)))).
  { induction items as [|x items IH]; intros st Hst; simpl; [by split|].
    destruct (process_item_well_formed dry_run x st Hst) as [Ho Hc].
    destruct (step dry_run x st) as [[o x'] st1]. specialize (IH st1 Hc).
    destruct (steps dry_run items st1) as [[os its] st2]. simpl in *.
    destruct IH as [IH1 IH2]. split; [by constructor|done]. }
  by apply Hgen.
Qed.

Lemma attempt_good (guard : bool) (ev : event) (edit : PlexItem → option PlexItem)
    (name : string) (acc : option (list string) * PlexItem * list event) :
  (guard = true → good_edit ev) →
  Forall good_edit (snd acc) →
  Forall good_edit (snd (attempt guard ev edit name acc)).
Proof.
  intros Hev Hacc. destruct acc as [[[changes|] item] evs]; simpl in *; [|done].
  destruct guard; [|done]. specialize (Hev eq_refl).
  destruct (edit item); simpl; apply Forall_app; by repeat constructor.
Qed.

Lemma apply_updates_good (item : PlexItem) (t v : string) (y : option datetime) :
  Forall good_edit (snd (apply_updates (detect item t v y) t v y item)).
Proof.
  unfold apply_updates.
  assert (H : Forall good_edit
    (snd (attempt (summary_changed (detect item t v y) && nonempty v)
            (EditSummary (title item) v) (editSummary v) "summary"
            (attempt (title_changed (detect item t v y)) (EditTitle (title item) t)
               (editTitle t) "title" (Some [], item, []))))).
  { apply attempt_good.
    - intros [_ Hv]%andb_true_iff. simpl. by destruct v.
    - apply attempt_good; [|by constructor].
      unfold detect. cbn [title_changed good_edit].
      by intros Ht%negb_true_iff%bool_decide_eq_false. }
  destruct y as [dt|]; [|done]. by apply attempt_good.
Qed.

Lemma checkpoint_good (was_cached : bool) (st : run_state) :
  Forall good_edit (trace st) → Forall good_edit (trace (checkpoint was_cached st)).
Proof.
  intros H. unfold checkpoint. cbn [incr_processed processed_count].
  destruct (_ =? 0), was_cached; simpl; rewrite ?Forall_app; by repeat constructor.
Qed.

Lemma process_item_good (dry_run : bool) (item : PlexItem) (st : run_state) :
  Forall good_edit (trace st) → Forall good_edit (trace (snd (step dry_run item st))).
Proof.
  intros Hst.
  step_cases;
    repeat match goal with
    | H : resolve _ _ _ = _ |- _ =>
        apply resolve_facts in H
          as [(? & -> & ->)|[(? & v & rest & ? & -> & ->)|(? & ? & -> & ->)]]
    | H : apply_updates (detect ?i ?t ?v ?y) ?t ?v ?y ?i = (_, _, ?evs) |- _ =>
        let He := fresh "He" in
        pose proof (apply_updates_good i t v y) as He;
        rewrite H in He; cbn [snd] in He; clear H
    end;
    try apply checkpoint_good; simpl; rewrite ?Forall_app; by repeat constructor.
Qed.

(** X21. Every edit call of a run is worth making: a title is only ever set to
    a title that differs from the one the item had, and a summary is only ever
    set to a text that is not empty. *)
Theorem edits_are_changes (dry_run : bool) (items : list PlexItem) (loaded : cache_t) :
  Forall good_edit (trace (snd (steps dry_run items (initial loaded)))).
Proof.
  assert (Hgen : ∀ st, Forall good_edit (trace st) →
                       Forall good_edit (trace (snd (steps dry_run items st)))).
  { induction items as [|x items IH]; intros st Hst; simpl; [done|].
    pose proof (process_item_good dry_run x st Hst) as H1.
    destruct (step dry_run x st) as [[o x'] st1]. specialize (IH st1 H1).
    by destruct (steps dry_run items st1) as [[os its] st2]. }
  apply Hgen. constructor.
Qed.

Lemma apply_updates_fields (d : decision) (t v : string) (y : option datetime)
    (item : PlexItem) :
  let item' := snd (fst (apply_updates d t v y item)) in
  media item' = media item
  ∧ editTitle_raises item' = editTitle_raises item
  ∧ editSummary_raises item' = editSummary_raises item
  ∧ editOriginallyAvailable_raises item' = editOriginallyAvailable_raises item
  ∧ (title item' = title item ∨ title item' = t)
  ∧ (summary item' = summary item ∨ summary item' = Some v ∧ nonempty v = true)
  ∧ (originallyAvailableAt item' = originallyAvailableAt item
     ∨ ∃ dt, y = Some dt ∧ originallyAvailableAt item' = Some (midnight (dt_date dt))).
Proof.
  unfold apply_updates, attempt, editTitle, editSummary, editOriginallyAvailable.
  destruct item as [ti me su oa [] [] []], d as [[] [] []], y as [dt|],
    (nonempty v) eqn:Hv; simpl; split_and!; eauto.
Qed.

Lemma item_view_kept (dry_run : bool) (item : PlexItem) (c : cache_t) :
  let '(o, item', _) := item_view fromisoformat youtube_service dry_run item c in
  kept item item' ∧ ((∀ d changes, o ≠ Applied d changes) → item' = item).
Proof.
  assert (Hrefl : kept item item) by (unfold kept; split_and!; auto).
  unfold item_view.
  destruct (media item) as [fp|]; [|done].
  destruct (fst (extract_youtube_id fp)) as [vid|]; [|done]. cbv zeta.
  destruct (negb (truthy _)); [done|].
  destruct (_ !! "channel_name") as [ch|]; [|done].
  destruct (_ !! "title") as [ti|]; [|done].
  destruct (negb dry_run && _).
  - match goal with |- context [apply_updates ?d ?t ?v ?y ?i] =>
      pose proof (apply_updates_fields d t v y i) as Hk;
      destruct (apply_updates d t v y i) as [[cs i'] evs]
    end.
    cbv zeta in Hk. cbn [fst snd] in Hk.
    destruct Hk as (? & ? & ? & ? & Ht & Hs & Hd). split.
    + unfold kept. split_and!; [done..| | |].
      * destruct Ht as [?|?]; eauto.
      * destruct Hs as [?|[? Hv]]; [by left|right]. eexists. split; [done|].
        intros Hv'. by rewrite Hv' in Hv.
      * destruct Hd as [?|(dt & _ & ?)]; eauto.
    + intros Hno. by destruct (Hno _ _ eq_refl).
  - by destruct (dry_run && _).
Qed.

(** X22. An item leaves the loop with the file and the server behaviour it
    came with; its title is the old one or a composed title, its summary the
    old one or a text that is not empty, its date the old one or a midnight;
    and an item whose outcome is not an applied update is not touched at
    all. *)
Theorem items_are_kept (dry_run : bool) (items : list PlexItem) (st : run_state) :
  let '(os, items', _) := steps dry_run items st in
  Forall2 kept items items'
  ∧ ∀ i o item item',
      os !! i = Some o → items !! i = Some item → items' !! i = Some item' →
      (∀ d changes, o ≠ Applied d changes) → item' = item.
Proof.
  revert st. induction items as [|x items IH]; intros st; simpl; [by split|].
  pose proof (process_item_view dry_run x st) as [Hv _].
  pose proof (item_view_kept dry_run x (cache st)) as Hk.
  destruct (item_view fromisoformat youtube_service dry_run x (cache st))
    as [[o1 x1] evs].
  destruct (step dry_run x st) as [[o x'] st1]. simpl in Hv. injection Hv as -> ->.
  specialize (IH st1). destruct (steps dry_run items st1) as [[os its] st2].
  destruct Hk as [Hk1 Hk2], IH as [IH1 IH2]. split; [by constructor|].
  intros [|i] o item item'; simpl.
  - intros [= <-] [= <-] [= <-]. apply Hk2.
  - apply IH2.
Qed.

End Loop.

(** * The properties on the small library *)

Lemma C1_checkpoint_every_ten_processed_witness :
  0 < processed_count
        (snd (process_items Iso.fromisoformat Demo.service false Demo.ten_videos
                (initial ∅)))
  ∧ processed_count
      (snd (process_items Iso.fromisoformat Demo.service false Demo.ten_videos
              (initial ∅))) mod 10 = 0
  ∧ last (saves (trace
        (snd (process_items Iso.fromisoformat Demo.service false Demo.ten_videos
                (initial ∅)))))
    = Some (cache
        (snd (process_items Iso.fromisoformat Demo.service false Demo.ten_videos
                (initial ∅)))).
Proof.
  assert (H1 : 0 < processed_count
        (snd (process_items Iso.fromisoformat Demo.service false Demo.ten_videos
                (initial ∅)))) by (vm_compute; lia).
  assert (H2 : processed_count
      (snd (process_items Iso.fromisoformat Demo.service false Demo.ten_videos
              (initial ∅))) mod 10 = 0) by (vm_compute; reflexivity).
  split_and!; [exact H1|exact H2|].
  exact (proj2 (proj2 (proj2 (proj2
    (C1_checkpoint_every_ten_processed Iso.fromisoformat Demo.service false
       Demo.ten_videos [Demo.video] ∅)))) H1 H2).
Defined.

Lemma C1_checkpoint_counterexample :
  length Demo.ten_failures = 10
  ∧ count_if counts_failed
      (fst (fst (process_items Iso.fromisoformat Demo.service false Demo.ten_failures
                   (initial ∅)))) = 10
  ∧ cache_saves
      (snd (process_items Iso.fromisoformat Demo.service false Demo.ten_failures
              (initial ∅))) = 0
  ∧ saves (trace
      (snd (process_items Iso.fromisoformat Demo.service false Demo.ten_failures
              (initial ∅)))) = [].
Proof. split_and!; vm_compute; reflexivity. Qed.

Lemma C3_date_changed_as_written_witness :
  decision_of
    (fst (fst (process_item Iso.fromisoformat Demo.service false Demo.eastern (initial ∅))))
  = Some (Decision false false false)
  ∧ ∃ file_path youtube_id md,
      media Demo.eastern = Some file_path
      ∧ fst (extract_youtube_id file_path) = Some youtube_id
      ∧ fst (resolve Demo.service youtube_id (initial ∅)) = Some md
      ∧ date_changed (Decision false false false)
        = date_changed_spec dt_date
            (parse_youtube_date Iso.fromisoformat (get_default md "published_at"))
            (dt_date <$> originallyAvailableAt Demo.eastern).
Proof.
  assert (H : decision_of
    (fst (fst (process_item Iso.fromisoformat Demo.service false Demo.eastern
                 (initial ∅))))
    = Some (Decision false false false)) by (vm_compute; reflexivity).
  split; [exact H|].
  exact (proj2 (proj2 (proj2 (proj2
    (C3_date_changed_as_written Iso.fromisoformat Demo.service false Demo.eastern
       (initial ∅))))) _ H).
Defined.

Lemma C3_date_changed_counterexample :
  parse_youtube_date Iso.fromisoformat "2023-12-25T23:30:00-05:00"
  = Some (Datetime (Date 2023 12 25) 23 30 0 0 (Some (-18000)%Z))
  ∧ originallyAvailableAt Demo.eastern = Some (midnight (Date 2023 12 25))
  ∧ decision_of
      (fst (fst (process_item Iso.fromisoformat Demo.service false Demo.eastern
                   (initial ∅))))
    = Some (Decision false false false)
  ∧ date_changed_spec utc_date
      (parse_youtube_date Iso.fromisoformat "2023-12-25T23:30:00-05:00")
      (dt_date <$> originallyAvailableAt Demo.eastern)
    = true.
Proof. split_and!; vm_compute; reflexivity. Qed.

Lemma C4_second_run_changes_nothing_witness :
  ∃ os1 items1 st1 os2 st2,
    Forall edits_accepted Demo.library
    ∧ process_library_items Iso.fromisoformat (Some Demo.library) Demo.service ∅
        false false = Summary os1 items1 st1
    ∧ process_library_items Iso.fromisoformat (Some items1) Demo.service (cache st1)
        false false = Summary os2 items1 st2
    ∧ updated_count st2 = 0
    ∧ count_if is_edit (trace st2) = 0
    ∧ Forall2 (settled Demo.service (cache st1)) items1 os2.
Proof.
  assert (Hacc : Forall edits_accepted Demo.library) by (repeat constructor).
  destruct (process_library_items Iso.fromisoformat (Some Demo.library) Demo.service ∅
              false false) as [saved| |os1 items1 st1] eqn:Hrun;
    [vm_compute in Hrun; discriminate..|].
  destruct (C4_second_run_changes_nothing Iso.fromisoformat Demo.service Demo.library
              ∅ (cache st1) false false os1 items1 st1 Hacc Hrun (or_introl eq_refl))
    as (os2 & st2 & H2).
  exists os1, items1, st1, os2, st2.
  split; [exact Hacc|]. split; [reflexivity|]. exact H2.
Defined.

Lemma C4_second_run_counterexample :
  ∃ os1 items1 st1 o2 items2 st2,
    process_library_items Iso.fromisoformat (Some [Demo.silent]) Demo.service ∅
      false false = Summary os1 items1 st1
    ∧ process_library_items Iso.fromisoformat (Some items1) Demo.service (cache st1)
        false false = Summary [o2] items2 st2
    ∧ decision_of o2 = Some (Decision false true false).
Proof.
  eexists _, _, _, _, _, _. split_and!.
  - vm_compute. reflexivity.
  - vm_compute. reflexivity.
  - reflexivity.
Qed.

Lemma C5_failed_lookup_not_cached_witness :
  lookup_failed (Demo.service "quota_12345") = true
  ∧ snd (fst (get_youtube_metadata Demo.service "quota_12345"
                {[ "dQw4w9WgXcQ" := snippet_metadata ∅ ]}))
    = {[ "dQw4w9WgXcQ" := snippet_metadata ∅ ]}
  ∧ fst (fst (get_youtube_metadata Demo.service "quota_12345"
                {[ "dQw4w9WgXcQ" := snippet_metadata ∅ ]})) = None.
Proof.
  assert (H : lookup_failed (Demo.service "quota_12345") = true) by reflexivity.
  destruct (C5_failed_lookup_not_cached Demo.service "quota_12345"
              {[ "dQw4w9WgXcQ" := snippet_metadata ∅ ]} H) as (Hc & _ & Hr).
  split_and!; [exact H|exact Hc|].
  apply Hr. vm_compute. reflexivity.
Defined.





Example extract_bracket :
  extract_youtube_id (Some "/tv/Some Show [dQw4w9WgXcQ].mkv")
  = (Some "dQw4w9WgXcQ",
     [Log DEBUG "Extracted YouTube ID 'dQw4w9WgXcQ' from: Some Show [dQw4w9WgXcQ].mkv"]).
Proof. reflexivity. Qed.

Example extract_order :
  fst (extract_youtube_id (Some "a_abcdefghijk.mp4 (ABCDEFGHIJK)")) = Some "ABCDEFGHIJK".
Proof. reflexivity. Qed.

Example extract_none :
  extract_youtube_id (Some "/tv/[short].mkv")
  = (None, [Log WARNING "No YouTube ID found in: [short].mkv"]).
Proof. reflexivity. Qed.

Example sanitize_spaces : sanitize_filename "  a  <b>|c?  " = "a (b)-c".
Proof. reflexivity. Qed.

Example utc_date_rolls_over :
  utc_date (Datetime (Date 2023 12 31) 23 30 0 0 (Some (-18000)%Z)) = Date 2024 1 1.
Proof. reflexivity. Qed.

Example iso_utc :
  Iso.fromisoformat "2023-12-25T10:30:00+00:00"
  = Some (Datetime (Date 2023 12 25) 10 30 0 0 (Some 0%Z)).
Proof. reflexivity. Qed.

Example iso_z_rejected : Iso.fromisoformat "2023-12-25T10:30:00Z" = None.
Proof. reflexivity. Qed.

(** * Further properties of the code *)

(** ** [sanitize_filename] *)

Lemma replace_removes (k : ascii) (new s : string) :
  Forall (λ c, c ≠ k) (list_ascii_of_string new) →
  Forall (λ c, c ≠ k) (list_ascii_of_string (Str.replace k new s)).
Proof.
  intros Hnew. induction s as [|a s IH]; simpl; [constructor|].
  destruct (Ascii.eqb_spec a k) as [->|Hne].
  - rewrite chars_append. by apply Forall_app.
  - simpl. by constructor.
Qed.

Lemma replace_keeps (P : ascii → Prop) (k : ascii) (new s : string) :
  Forall P (list_ascii_of_string new) → Forall P (list_ascii_of_string s) →
  Forall P (list_ascii_of_string (Str.replace k new s)).
Proof.
  intros Hnew. induction s as [|a s IH]; simpl; intros Hs; [constructor|].
  inversion_clear Hs as [|?? Ha Hs'].
  destruct (Ascii.eqb a k).
  - rewrite chars_append. apply Forall_app. auto.
  - simpl. constructor; auto.
Qed.

Lemma replace_absent (k : ascii) (new s : string) :
  Forall (λ c, c ≠ k) (list_ascii_of_string s) → Str.replace k new s = s.
Proof.
  induction s as [|a s IH]; simpl; intros Hs; [done|].
  inversion_clear Hs as [|?? Ha Hs'].
  destruct (Ascii.eqb_spec a k); [done|]. by rewrite IH.
Qed.

Lemma fold_replace_free (rs : list (ascii * string)) (s : string) (k : ascii) :
  Forall (λ r, Forall (λ c, c ≠ k) (list_ascii_of_string (snd r))) rs →
  Forall (λ c, c ≠ k) (list_ascii_of_string s) ∨ k ∈ map fst rs →
  Forall (λ c, c ≠ k)
    (list_ascii_of_string (fold_left (λ t r, Str.replace (fst r) (snd r) t) rs s)).
Proof.
  revert s. induction rs as [|r rs IH]; intros s Hrs Hk; simpl.
  - destruct Hk as [?|Hk]; [done|]. by apply elem_of_nil in Hk.
  - inversion_clear Hrs as [|?? Hr Hrs']. apply IH; [done|].
    destruct Hk as [Hs|Hk].
    + left. by apply replace_keeps.
    + simpl in Hk. apply elem_of_cons in Hk as [->|Hk]; [|by right].
      left. by apply replace_removes.
Qed.

Lemma fold_replace_absent (rs : list (ascii * string)) (s : string) :
  Forall (λ c, Forall (λ r, c ≠ fst r) rs) (list_ascii_of_string s) →
  fold_left (λ t r, Str.replace (fst r) (snd r) t) rs s = s.
Proof.
  revert s. induction rs as [|r rs IH]; intros s Hs; simpl; [done|].
  rewrite replace_absent.
  - apply IH. eapply Forall_impl; [exact Hs|]. intros c Hc. by inversion Hc.
  - eapply Forall_impl; [exact Hs|]. intros c Hc. by inversion Hc.
Qed.

Lemma forbidden_false (c : ascii) :
  forbidden c = false ↔ Forall (λ r, c ≠ fst r) replacements.
Proof.
  unfold forbidden. induction replacements as [|r rs IH]; simpl.
  - split; [constructor|done].
  - rewrite orb_false_iff, IH. split.
    + intros [Hc Hrs]. constructor; [|done]. by apply Ascii.eqb_neq.
    + intros H. inversion_clear H. split; [|done]. by apply Ascii.eqb_neq.
Qed.

(** The replacement strings bring none of the keys back. *)
Lemma replacements_closed :
  Forall (λ k, Forall (λ r, Forall (λ c, c ≠ k) (list_ascii_of_string (snd r)))
                 replacements)
    (map fst replacements).
Proof. apply (bool_decide_unpack _). vm_compute. exact I. Qed.

Lemma replaced_no_forbidden (text : string) :
  Forall (λ c, forbidden c = false)
    (list_ascii_of_string
       (fold_left (λ t r, Str.replace (fst r) (snd r) t) replacements text)).
Proof.
  set (s := fold_left _ replacements text).
  assert (H : ∀ k, k ∈ map fst replacements →
                   Forall (λ c, c ≠ k) (list_ascii_of_string s)).
  { intros k Hk. apply fold_replace_free; [|by right].
    by apply (proj1 (Forall_forall _ _) replacements_closed). }
  clearbody s. induction s as [|a s IH]; simpl; [constructor|]. constructor.
  - apply forbidden_false, Forall_forall. intros r Hr Ha.
    assert (Hk : fst r ∈ map fst replacements) by (by apply list_elem_of_fmap_2).
    specialize (H _ Hk). inversion_clear H. congruence.
  - apply IH. intros k Hk. specialize (H k Hk). by inversion H.
Qed.

Lemma collapse_spaces_chars (P : ascii → Prop) (b : bool) (s : string) :
  P " "%char → Forall P (list_ascii_of_string s) →
  Forall P (list_ascii_of_string (collapse_spaces b s)).
Proof.
  intros Hsp. revert b. induction s as [|a s IH]; intros b Hs; simpl; [constructor|].
  inversion_clear Hs as [|?? Ha Hs'].
  destruct (is_space a); [destruct b|]; simpl; auto.
Qed.

Lemma lstrip_chars (P : ascii → Prop) (s : string) :
  Forall P (list_ascii_of_string s) → Forall P (list_ascii_of_string (lstrip s)).
Proof.
  induction s as [|a s IH]; simpl; intros Hs; [constructor|].
  destruct (is_space a); [|done]. apply IH. by inversion Hs.
Qed.

Lemma rstrip_chars (P : ascii → Prop) (s : string) :
  Forall P (list_ascii_of_string s) → Forall P (list_ascii_of_string (rstrip s)).
Proof.
  induction s as [|a s IH]; simpl; intros Hs; [constructor|].
  inversion_clear Hs as [|?? Ha Hs']. specialize (IH Hs').
  destruct (rstrip s) as [|b r]; [destruct (is_space a)|]; simpl; auto.
Qed.

Lemma take_chars (P : ascii → Prop) (n : nat) (s : string) :
  Forall P (list_ascii_of_string s) → Forall P (list_ascii_of_string (Str.take n s)).
Proof.
  revert s. induction n as [|n IH]; intros [|a s] Hs; simpl; try constructor.
  - by inversion Hs.
  - apply IH. by inversion Hs.
Qed.

Lemma take_length (n : nat) (s : string) :
  String.length (Str.take n s) = n `min` String.length s.
Proof.
  revert s. induction n as [|n IH]; intros [|a s]; simpl; try done. by rewrite IH.
Qed.

Lemma spaced_mono (s : string) : spaced true s = true → spaced false s = true.
Proof.
  destruct s as [|a s]; simpl; [done|].
  destruct (is_space a); [|done]. by rewrite andb_false_r.
Qed.

Lemma collapse_spaces_spaced (b : bool) (s : string) :
  spaced b (collapse_spaces b s) = true.
Proof.
  revert b. induction s as [|a s IH]; intros b; simpl; [done|].
  destruct (is_space a) eqn:Ha.
  - destruct b; [apply IH|]. simpl. apply IH.
  - simpl. rewrite Ha. apply IH.
Qed.

Lemma lstrip_spaced (b : bool) (s : string) :
  spaced b s = true → spaced true (lstrip s) = true.
Proof.
  revert b. induction s as [|a s IH]; intros b; simpl; [done|].
  destruct (is_space a) eqn:Ha.
  - intros H. apply andb_true_iff in H as [_ H]. by apply (IH true).
  - simpl. by rewrite Ha.
Qed.

Lemma rstrip_spaced (b : bool) (s : string) :
  spaced b s = true → spaced b (rstrip s) = true.
Proof.
  revert b. induction s as [|a s IH]; intros b; simpl; [done|].
  destruct (is_space a) eqn:Ha.
  - intros H. apply andb_true_iff in H as [H1 H2]. specialize (IH true H2).
    destruct (rstrip s) as [|c r]; [done|]. simpl. by rewrite Ha, H1.
  - intros H. specialize (IH false H).
    destruct (rstrip s) as [|c r]; simpl; by rewrite Ha.
Qed.

Lemma rstrip_ends (s : string) : ends_nonspace (rstrip s) = true.
Proof.
  induction s as [|a s IH]; simpl; [done|].
  destruct (rstrip s) as [|c r]; [|done].
  destruct (is_space a) eqn:Ha; simpl; [done|]. by rewrite Ha.
Qed.

Lemma take_spaced (b : bool) (n : nat) (s : string) :
  spaced b s = true → spaced b (Str.take n s) = true.
Proof.
  revert b s. induction n as [|n IH]; intros b [|a s]; simpl; try done.
  destruct (is_space a).
  - intros H. apply andb_true_iff in H as [H1 H2]. by rewrite H1, IH.
  - apply IH.
Qed.

Lemma spaced_append (b : bool) (x y : string) :
  spaced b x = true → spaced true y = true → spaced b (x +:+ y) = true.
Proof.
  revert b. induction x as [|a x IH]; intros b Hx Hy.
  - rewrite append_nil_l. destruct b; [done|]. by apply spaced_mono.
  - rewrite append_cons. simpl in *. destruct (is_space a).
    + apply andb_true_iff in Hx as [H1 H2]. by rewrite H1, IH.
    + by apply IH.
Qed.

Lemma ends_nonspace_append (x y : string) :
  y ≠ EmptyString → ends_nonspace (x +:+ y) = ends_nonspace y.
Proof.
  intros Hy. induction x as [|a x IH]; [done|].
  rewrite append_cons. simpl. destruct (x +:+ y) as [|c r] eqn:E; [|done].
  destruct x; [|done]. by rewrite append_nil_l in E.
Qed.

Lemma collapse_spaces_fixed (b : bool) (s : string) :
  spaced b s = true → collapse_spaces b s = s.
Proof.
  revert b. induction s as [|a s IH]; intros b; simpl; [done|].
  destruct (is_space a).
  - intros H. apply andb_true_iff in H as [H1 H2].
    apply andb_true_iff in H1 as [H0 H1].
    apply Ascii.eqb_eq in H0 as ->. destruct b; [done|]. by rewrite IH.
  - intros H. by rewrite IH.
Qed.

Lemma lstrip_fixed (s : string) : spaced true s = true → lstrip s = s.
Proof.
  destruct s as [|a s]; simpl; [done|].
  destruct (is_space a); [|done]. by rewrite andb_false_r.
Qed.

Lemma rstrip_fixed (s : string) : ends_nonspace s = true → rstrip s = s.
Proof.
  induction s as [|a s IH]; [done|]. intros H.
  assert (Hr : rstrip (String a s)
               = match rstrip s with
                 | EmptyString => if is_space a then EmptyString else String a EmptyString
                 | r => String a r
                 end) by reflexivity.
  rewrite Hr. clear Hr. destruct s as [|c r].
  - simpl in *. apply negb_true_iff in H. by rewrite H.
  - by rewrite (IH H).
Qed.

(** The text before the length limit of lines 191-193. *)
Lemma sanitize_filename_unfold (text : string) :
  sanitize_filename text
  = let t := strip (collapse_spaces false
                      (fold_left (λ t r, Str.replace (fst r) (snd r) t)
                         replacements text)) in
    if 200 <? String.length t then Str.take 197 t +:+ "..." else t.
Proof. reflexivity. Qed.

Lemma sanitized_length (text : string) :
  String.length (sanitize_filename text) ≤ 200.
Proof.
  rewrite sanitize_filename_unfold. cbv zeta.
  set (t := strip _).
  destruct (Nat.ltb_spec 200 (String.length t)) as [Hlt|Hle]; [|done].
  rewrite append_length, take_length.
  change (String.length "...") with 3. lia.
Qed.

(** X1. A sanitized text has at most 200 characters, and exactly 200 when
    the limit cut it. *)
Theorem sanitize_filename_length (text : string) :
  String.length (sanitize_filename text) ≤ 200
  ∧ (200 < String.length
             (strip (collapse_spaces false
                       (fold_left (λ t r, Str.replace (fst r) (snd r) t)
                          replacements text))) →
     String.length (sanitize_filename text) = 200
     ∧ ∃ head, sanitize_filename text = head +:+ "...").
Proof.
  rewrite sanitize_filename_unfold. cbv zeta.
  set (t := strip _).
  destruct (Nat.ltb_spec 200 (String.length t)) as [Hlt|Hle].
  - rewrite append_length, take_length.
    change (String.length "...") with 3. split; [lia|].
    intros _. split; [lia|]. by eexists.
  - split; [done|lia].
Qed.

Lemma sanitized_chars (text : string) :
  Forall (λ c, forbidden c = false) (list_ascii_of_string (sanitize_filename text)).
Proof.
  rewrite sanitize_filename_unfold. cbv zeta.
  assert (H : Forall (λ c, forbidden c = false)
                (list_ascii_of_string
                   (strip (collapse_spaces false
                      (fold_left (λ t r, Str.replace (fst r) (snd r) t)
                         replacements text))))).
  { apply rstrip_chars, lstrip_chars, collapse_spaces_chars; [done|].
    apply replaced_no_forbidden. }
  destruct (200 <? _); [|done].
  rewrite chars_append. apply Forall_app. split; [by apply take_chars|].
  by repeat constructor.
Qed.

Lemma sanitized_spacing (text : string) :
  spaced true (sanitize_filename text) = true
  ∧ ends_nonspace (sanitize_filename text) = true.
Proof.
  rewrite sanitize_filename_unfold. cbv zeta. unfold strip.
  set (u := collapse_spaces false _).
  assert (Hu : spaced true (rstrip (lstrip u)) = true).
  { apply rstrip_spaced, (lstrip_spaced false). apply collapse_spaces_spaced. }
  destruct (200 <? _).
  - split.
    + apply spaced_append; [by apply take_spaced|done].
    + by rewrite ends_nonspace_append.
  - split; [done|apply rstrip_ends].
Qed.

Lemma tidy_fixed (s : string) : tidy s → sanitize_filename s = s.
Proof.
  intros (Hf & Hs & He & Hl). rewrite sanitize_filename_unfold.
  rewrite fold_replace_absent.
  2:{ eapply Forall_impl; [exact Hf|]. intros c. apply forbidden_false. }
  rewrite collapse_spaces_fixed by (by apply spaced_mono).
  unfold strip. rewrite lstrip_fixed, rstrip_fixed by done. cbv zeta.
  destruct (Nat.ltb_spec 200 (String.length s)); [lia|done].
Qed.

(** X2. A sanitized text holds none of the characters the replacement table
    has a key for: no slash, backslash, colon, star, question mark, double
    quote, angle bracket, bar, newline, carriage return or tab. *)
Theorem sanitize_filename_no_forbidden (text : string) :
  Forall (λ c, forbidden c = false) (list_ascii_of_string (sanitize_filename text)).
Proof. apply sanitized_chars. Qed.

(** X3. In a sanitized text every whitespace character is a single plain
    space between two other characters: none at the start, none at the end,
    no two in a row, and no other kind of whitespace. *)
Theorem sanitize_filename_spacing (text : string) :
  spaced true (sanitize_filename text) = true
  ∧ ends_nonspace (sanitize_filename text) = true.
Proof. apply sanitized_spacing. Qed.

(** X4. A text that is already tidy comes back as it is. *)
Theorem sanitize_filename_fixed (s : string) : tidy s → sanitize_filename s = s.
Proof. apply tidy_fixed. Qed.

Lemma sanitize_filename_fixed_witness :
  tidy "AB-CD - Title - One"
  ∧ sanitize_filename "AB-CD - Title - One" = "AB-CD - Title - One".
Proof.
  assert (H : tidy "AB-CD - Title - One").
  { split_and!; [by repeat constructor|reflexivity|reflexivity|simpl; lia]. }
  split; [exact H|]. exact (sanitize_filename_fixed _ H).
Defined.

(** X5. Sanitizing twice is sanitizing once. *)
Theorem sanitize_filename_idempotent (text : string) :
  sanitize_filename (sanitize_filename text) = sanitize_filename text.
Proof.
  apply tidy_fixed. split_and!.
  - apply sanitized_chars.
  - apply sanitized_spacing.
  - apply sanitized_spacing.
  - apply sanitized_length.
Qed.

(** X6. A composed title has at most 403 characters and none of the
    characters the replacement table has a key for. *)
Theorem create_new_title_bounds (channel_name video_title : string) :
  String.length (create_new_title channel_name video_title) ≤ 403
  ∧ Forall (λ c, forbidden c = false)
      (list_ascii_of_string (create_new_title channel_name video_title)).
Proof.
  unfold create_new_title. cbv zeta. split.
  - rewrite !append_length. change (String.length " - ") with 3.
    pose proof (sanitized_length channel_name).
    pose proof (sanitized_length video_title). lia.
  - rewrite !chars_append. rewrite !Forall_app. split_and!.
    + apply sanitized_chars.
    + by repeat constructor.
    + apply sanitized_chars.
Qed.

(** ** [extract_youtube_id] *)

Lemma first_match_some (ps : list pattern) (filename t : string) :
  first_match ps filename = Some t →
  ∃ p, p ∈ ps ∧ re_search p filename = Some t.
Proof.
  induction ps as [|p ps IH]; simpl; [done|].
  destruct (re_search p filename) as [t'|] eqn:E.
  - intros [= ->]. exists p. split; [by left|done].
  - intros H. destruct (IH H) as (q & Hq & Hs). exists q. split; [by right|done].
Qed.

(** X7. Whatever [extract_youtube_id] returns is a whole identifier: 11
    characters of the class, standing in the file name between the delimiters
    of one of the five patterns; and the call then logs one debug record and
    no warning. *)
Theorem extract_youtube_id_token (file_path : option string) (t : string) :
  fst (extract_youtube_id file_path) = Some t →
  token t
  ∧ (∃ path p pre,
       file_path = Some path ∧ path ≠ EmptyString ∧ p ∈ patterns
       ∧ occurs p (basename path) pre t)
  ∧ Forall (λ r, log_level r = DEBUG) (snd (extract_youtube_id file_path)).
Proof.
  destruct file_path as [[|a path]|]; [done| |done].
  unfold extract_youtube_id. cbv zeta.
  destruct (first_match patterns (basename (String a path))) as [t'|] eqn:E; [|done].
  intros [= ->]. apply first_match_some in E as (p & Hp & Hs).
  apply re_search_leftmost in Hs as (pre & Ho & _).
  split_and!.
  - by destruct Ho.
  - by exists (String a path), p, pre.
  - by repeat constructor.
Qed.

Lemma extract_youtube_id_token_witness :
  fst (extract_youtube_id (Some "/tv/Some Show [dQw4w9WgXcQ].mkv")) = Some "dQw4w9WgXcQ"
  ∧ token "dQw4w9WgXcQ".
Proof.
  assert (H : fst (extract_youtube_id (Some "/tv/Some Show [dQw4w9WgXcQ].mkv"))
              = Some "dQw4w9WgXcQ") by reflexivity.
  split; [exact H|]. exact (proj1 (extract_youtube_id_token _ _ H)).
Defined.

(** ** [parse_youtube_date] *)

Lemma replace_append (k : ascii) (new a b : string) :
  Str.replace k new (a +:+ b) = Str.replace k new a +:+ Str.replace k new b.
Proof.
  induction a as [|c a IH]; [done|].
  rewrite append_cons. simpl. destruct (Ascii.eqb c k).
  - by rewrite IH, append_assoc.
  - by rewrite IH, append_cons.
Qed.

Lemma endswith_char_split (c : ascii) (s : string) :
  Str.endswith_char c s = true → s = Str.drop_last s +:+ String c EmptyString.
Proof.
  induction s as [|a s IH]; [done|].
  destruct s as [|b r].
  - simpl. by intros ->%Ascii.eqb_eq.
  - intros H. change (Str.endswith_char c (String b r) = true) in H.
    change (Str.drop_last (String a (String b r)))
      with (String a (Str.drop_last (String b r))).
    rewrite append_cons. by rewrite <-(IH H).
Qed.

(** X8. [parse_youtube_date] gives [None] for the empty string, and for any
    other it hands to [datetime.fromisoformat] the string with every Z
    replaced by +00:00: the separate treatment of a trailing Z changes
    nothing. *)
Theorem parse_youtube_date_replaces_every_Z (fromisoformat : string → option datetime)
    (published_at : string) :
  parse_youtube_date fromisoformat published_at
  = match published_at with
    | EmptyString => None
    | _ => fromisoformat (Str.replace "Z"%char "+00:00" published_at)
    end.
Proof.
  unfold parse_youtube_date. destruct published_at as [|a s]; [done|].
  destruct (Str.endswith_char "Z"%char (String a s)) eqn:E; [|done].
  apply endswith_char_split in E. rewrite E at 2.
  by rewrite !replace_append.
Qed.

(** ** [get_youtube_metadata] and the cache *)

(** X9. After a lookup that returned a record, looking the same identifier up
    again returns that record from the cache: no request is sent and the cache
    stays as it is. *)
Theorem get_youtube_metadata_read_through (youtube_service : string → api_outcome)
    (video_id : string) (cache : cache_t) (md : metadata) :
  fst (fst (get_youtube_metadata youtube_service video_id cache)) = Some md →
  let cache' := snd (fst (get_youtube_metadata youtube_service video_id cache)) in
  get_youtube_metadata youtube_service video_id cache' = (Some md, cache', []).
Proof.
  intros Hmd. cbv zeta.
  assert (H : snd (fst (get_youtube_metadata youtube_service video_id cache)) !! video_id
              = Some md ∧ truthy (Some md) = true).
  { revert Hmd. unfold get_youtube_metadata, get_cached_metadata, cache_metadata.
    destruct (truthy (cache !! video_id)) eqn:Hc; cbn [fst snd].
    - intros Hmd. by rewrite <-Hmd.
    - destruct (youtube_service video_id) as [[|[v|] rest]| |]; cbn [fst snd];
        intros [= <-].
      by rewrite lookup_insert_eq, snippet_metadata_truthy. }
  destruct H as [Hl Ht].
  destruct (get_youtube_metadata youtube_service video_id cache) as [[r c'] evs].
  cbn [fst snd] in *. unfold get_youtube_metadata, get_cached_metadata.
  by rewrite Hl, Ht.
Qed.

Lemma get_youtube_metadata_read_through_witness :
  fst (fst (get_youtube_metadata Demo.service "silentVideo" ∅))
  = Some (snippet_metadata {[ "title" := "Quiet"; "channelTitle" := "Calm";
                              "description" := EmptyString;
                              "publishedAt" := "2024-02-29T08:00:00Z" ]})
  ∧ snd (get_youtube_metadata Demo.service "silentVideo"
           (snd (fst (get_youtube_metadata Demo.service "silentVideo" ∅)))) = [].
Proof.
  assert (H : fst (fst (get_youtube_metadata Demo.service "silentVideo" ∅))
    = Some (snippet_metadata {[ "title" := "Quiet"; "channelTitle" := "Calm";
                                "description" := EmptyString;
                                "publishedAt" := "2024-02-29T08:00:00Z" ]}))
    by reflexivity.
  split; [exact H|].
  by rewrite (get_youtube_metadata_read_through _ _ _ _ H).
Defined.

(** The record built from a provider response has exactly the four keys
    title, channel_name, description and published_at; a field the snippet
    lacks becomes the empty string. *)
Lemma snippet_metadata_four_keys (video_info : gmap string string) :
  dom (snippet_metadata video_info)
  = ({[ "title"; "channel_name"; "description"; "published_at" ]} : gset string)
  ∧ snippet_metadata video_info !! "title"
    = Some (default EmptyString (video_info !! "title"))
  ∧ snippet_metadata video_info !! "channel_name"
    = Some (default EmptyString (video_info !! "channelTitle"))
  ∧ snippet_metadata video_info !! "description"
    = Some (default EmptyString (video_info !! "description"))
  ∧ snippet_metadata video_info !! "published_at"
    = Some (default EmptyString (video_info !! "publishedAt")).
Proof.
  unfold snippet_metadata, get_default. split_and!; [|by simplify_map_eq..].
  rewrite !dom_insert_L, dom_singleton_L. set_solver.
Qed.

(** X10. A cache entry that is an empty record counts as a miss: the provider
    is asked, and when it has a record the entry is replaced by it. *)
Theorem get_youtube_metadata_empty_entry (youtube_service : string → api_outcome)
    (video_id : string) (cache : cache_t) (v : gmap string string)
    (rest : list (option (gmap string string))) :
  cache !! video_id = Some ∅ →
  youtube_service video_id = Response (Some v :: rest) →
  get_youtube_metadata youtube_service video_id cache
  = (Some (snippet_metadata v), <[video_id := snippet_metadata v]> cache,
     [Request video_id]).
Proof.
  intros Hc Hs. unfold get_youtube_metadata, get_cached_metadata, cache_metadata.
  rewrite Hc, Hs. reflexivity.
Qed.

(** X11. A lookup leaves the entries of all other identifiers alone, never
    removes an entry, and sends at most one request, for the identifier it was
    asked about. *)
Theorem get_youtube_metadata_local (youtube_service : string → api_outcome)
    (video_id : string) (cache : cache_t) :
  let '(_, cache', evs) := get_youtube_metadata youtube_service video_id cache in
  (∀ other, other ≠ video_id → cache' !! other = cache !! other)
  ∧ dom cache ⊆ dom cache'
  ∧ (evs = [] ∨ evs = [Request video_id]).
Proof.
  unfold get_youtube_metadata, get_cached_metadata, cache_metadata.
  destruct (truthy (cache !! video_id)); [by auto|].
  destruct (youtube_service video_id) as [[|[v|] rest]| |]; simpl;
    (split_and!; [|set_solver|by right]); try done.
  intros other Hne. by rewrite lookup_insert_ne.
Qed.

Lemma get_youtube_metadata_empty_entry_witness :
  ({[ "dQw4w9WgXcQ" := ∅ ]} : cache_t) !! "dQw4w9WgXcQ" = Some ∅
  ∧ snd (get_youtube_metadata Demo.service "dQw4w9WgXcQ" {[ "dQw4w9WgXcQ" := ∅ ]})
    = [Request "dQw4w9WgXcQ"].
Proof.
  assert (H : ({[ "dQw4w9WgXcQ" := ∅ ]} : cache_t) !! "dQw4w9WgXcQ" = Some ∅)
    by reflexivity.
  split; [exact H|].
  by rewrite (get_youtube_metadata_empty_entry Demo.service "dQw4w9WgXcQ" _ _ _ H eq_refl).
Defined.

Lemma get_youtube_metadata_local_witness :
  "dQw4w9WgXcQ" ≠ "silentVideo"
  ∧ snd (fst (get_youtube_metadata Demo.service "silentVideo"
                {[ "dQw4w9WgXcQ" := ∅ ]})) !! "dQw4w9WgXcQ"
    = ({[ "dQw4w9WgXcQ" := ∅ ]} : cache_t) !! "dQw4w9WgXcQ".
Proof.
  assert (Hne : "dQw4w9WgXcQ" ≠ "silentVideo") by discriminate.
  split; [exact Hne|].
  pose proof (get_youtube_metadata_local Demo.service "silentVideo"
                {[ "dQw4w9WgXcQ" := ∅ ]}) as H.
  destruct (get_youtube_metadata Demo.service "silentVideo" {[ "dQw4w9WgXcQ" := ∅ ]})
    as [[r c'] evs].
  destruct H as (H & _). exact (H _ Hne).
Defined.

(** ** [get_library] *)

Lemma find_by_title_some (libraries : list library) (name : string) (l : library) :
  find_by_title libraries name = Some l ↔
  ∃ before after,
    libraries = before ++ l :: after
    ∧ lower (lib_title l) = lower name
    ∧ Forall (λ l', lower (lib_title l') ≠ lower name) before.
Proof.
  induction libraries as [|l0 libraries IH]; simpl.
  - split; [done|]. intros (before & after & H & _). by destruct before.
  - case_bool_decide as Hl.
    + split.
      * intros [= <-]. exists [], libraries. by split_and!.
      * intros (before & after & H & Hm & Hb). destruct before as [|b before].
        -- by injection H as <- _.
        -- injection H as <- _. by inversion Hb.
    + rewrite IH. split.
      * intros (before & after & -> & Hm & Hb). exists (l0 :: before), after.
        split_and!; [done..|]. by constructor.
      * intros (before & after & H & Hm & Hb). destruct before as [|b before].
        -- injection H as <- _. done.
        -- injection H as <- ->. exists before, after. split_and!; [done..|].
           by inversion Hb.
Qed.

Lemma find_by_title_none (libraries : list library) (name : string) :
  find_by_title libraries name = None ↔
  Forall (λ l, lower (lib_title l) ≠ lower name) libraries.
Proof.
  induction libraries as [|l0 libraries IH]; simpl.
  - split; [constructor|done].
  - case_bool_decide as Hl.
    + split; [done|]. by inversion 1.
    + rewrite IH. split; [by constructor|by inversion 1].
Qed.

(** X23. Asked for a library by a name that is not empty, [get_library]
    reads nothing from the prompt: it returns the first library whose title is
    the name up to case, and raises the error that names it when there is
    none. *)
Theorem get_library_by_name (libraries : list library) (name : string)
    (entries : list entry) :
  libraries ≠ [] → name ≠ EmptyString →
  (∀ l, get_library libraries (Some name) entries = Selected l ↔
        ∃ before after,
          libraries = before ++ l :: after
          ∧ lower (lib_title l) = lower name
          ∧ Forall (λ l', lower (lib_title l') ≠ lower name) before)
  ∧ (get_library libraries (Some name) entries
     = RaisesValueError ("Library '" +:+ name +:+ "' not found") ↔
     Forall (λ l, lower (lib_title l) ≠ lower name) libraries)
  ∧ get_library libraries (Some name) entries ≠ Prompting
  ∧ get_library libraries (Some name) entries ≠ Exits 0.
Proof.
  intros Hl Hn. destruct libraries as [|l0 libraries]; [done|].
  destruct name as [|a name]; [done|]. unfold get_library.
  pose proof (find_by_title_some (l0 :: libraries) (String a name)) as Hs.
  pose proof (find_by_title_none (l0 :: libraries) (String a name)) as Hnone.
  destruct (find_by_title (l0 :: libraries) (String a name)) as [l|].
  - split_and!; [|split; [done|]|done..].
    + intros l'. rewrite <-Hs. split; congruence.
    + intros H. by apply Hnone in H.
  - split_and!; [|by rewrite <-Hnone|done..].
    intros l'. rewrite <-Hs. split; congruence.
Qed.

Lemma get_library_by_name_witness :
  [Library "Movies" "movie" 10; Library "YouTube" "show" 42] ≠ []
  ∧ "youtube" ≠ EmptyString
  ∧ get_library [Library "Movies" "movie" 10; Library "YouTube" "show" 42]
      (Some "youtube") [] = Selected (Library "YouTube" "show" 42).
Proof.
  assert (H1 : [Library "Movies" "movie" 10; Library "YouTube" "show" 42] ≠ [])
    by discriminate.
  assert (H2 : "youtube" ≠ EmptyString) by discriminate.
  split_and!; [exact H1|exact H2|].
  apply (proj1 (get_library_by_name _ _ [] H1 H2)).
  exists [Library "Movies" "movie" 10], []. split_and!; [reflexivity..|].
  repeat constructor. by vm_compute.
Defined.

Lemma choose_skips (libraries : list library) (skipped rest : list entry) :
  Forall (rejected libraries) skipped →
  choose libraries (skipped ++ rest) = choose libraries rest.
Proof.
  induction 1 as [|e skipped He _ IH]; [done|]. simpl.
  destruct e as [n| |]; simpl in He; [|done..].
  destruct (Z.leb_spec 0 (n - 1)), (Z.ltb_spec (n - 1) (Z.of_nat (length libraries)));
    simpl; first [done | lia].
Qed.

Lemma choose_in_range (libraries : list library) (n : nat) (l : library)
    (rest : list entry) :
  libraries !! n = Some l →
  choose libraries (Typed (Z.of_nat n + 1) :: rest) = Selected l.
Proof.
  intros Hn. pose proof (lookup_lt_Some _ _ _ Hn) as Hlt. cbn [choose]. cbv zeta.
  replace (Z.of_nat n + 1 - 1)%Z with (Z.of_nat n) by lia.
  rewrite (proj2 (Z.leb_le 0 (Z.of_nat n))) by lia.
  rewrite (proj2 (Z.ltb_lt (Z.of_nat n) (Z.of_nat (length libraries)))) by lia.
  cbn [andb]. by rewrite Nat2Z.id, Hn.
Qed.

(** X24. Without a name, the prompt asks again after every entry that is not
    a number or is a number outside 1..n, and returns the library at the
    position of the first number inside; an interrupt at the prompt ends the
    program with exit code 0. *)
Theorem get_library_prompt (libraries : list library) (library_name : option string)
    (skipped rest : list entry) :
  libraries ≠ [] →
  library_name = None ∨ library_name = Some EmptyString →
  Forall (rejected libraries) skipped →
  (∀ n l, libraries !! n = Some l →
          get_library libraries library_name (skipped ++ Typed (Z.of_nat n + 1) :: rest)
          = Selected l)
  ∧ get_library libraries library_name (skipped ++ Interrupted :: rest) = Exits 0
  ∧ get_library libraries library_name skipped = Prompting.
Proof.
  intros Hl Hname Hsk. destruct libraries as [|l0 libraries]; [done|].
  assert (Hget : ∀ entries, get_library (l0 :: libraries) library_name entries
                            = choose (l0 :: libraries) entries)
    by (by destruct Hname as [-> | ->]).
  rewrite !Hget. split_and!.
  - intros n l Hn. rewrite Hget, choose_skips by done. by apply choose_in_range.
  - by rewrite choose_skips.
  - rewrite <-(app_nil_r skipped). by rewrite choose_skips.
Qed.

Lemma get_library_prompt_witness :
  [Library "Movies" "movie" 10; Library "YouTube" "show" 42] ≠ []
  ∧ Forall (rejected [Library "Movies" "movie" 10; Library "YouTube" "show" 42])
      [NotANumber; Typed 0; Typed 3]
  ∧ get_library [Library "Movies" "movie" 10; Library "YouTube" "show" 42] None
      ([NotANumber; Typed 0; Typed 3] ++ [Typed 2; Typed 1])
    = Selected (Library "YouTube" "show" 42).
Proof.
  assert (H1 : [Library "Movies" "movie" 10; Library "YouTube" "show" 42] ≠ [])
    by discriminate.
  assert (H2 : Forall (rejected [Library "Movies" "movie" 10; Library "YouTube" "show" 42])
                 [NotANumber; Typed 0; Typed 3])
    by (repeat constructor; simpl; lia).
  split_and!; [exact H1|exact H2|].
  exact (proj1 (get_library_prompt _ None _ [Typed 1] H1 (or_introl eq_refl) H2)
           1 _ eq_refl).
Defined.

(** X25. Whatever the name and the entries, a library that [get_library]
    returns is one of the libraries of the server, and with no library at all
    the call raises its error at once. *)
Theorem get_library_member (libraries : list library) (library_name : option string)
    (entries : list entry) :
  (∀ l, get_library libraries library_name entries = Selected l → l ∈ libraries)
  ∧ (libraries = [] →
     get_library libraries library_name entries
     = RaisesValueError "No libraries found on Plex server").
Proof.
  split; [|by intros ->].
  intros l. destruct libraries as [|l0 libraries]; [done|]. unfold get_library.
  assert (Hc : choose (l0 :: libraries) entries = Selected l → l ∈ l0 :: libraries).
  { induction entries as [|[n| |] entries IH]; simpl; try done.
    destruct (_ && _); [|done].
    destruct (_ !! _) as [l'|] eqn:E; [|done].
    intros [= ->]. by eapply list_elem_of_lookup_2. }
  destruct library_name as [[|a name]|]; [done| |done].
  destruct (find_by_title _ _) as [l'|] eqn:E; [|done].
  intros [= ->]. apply find_by_title_some in E as (before & after & -> & _).
  apply elem_of_app. right. by left.
Qed.

(** ** The properties of the loop on the small library *)

Lemma sanitize_filename_length_witness :
  String.length (sanitize_filename (string_of_list_ascii (repeat "a"%char 201))) = 200.
Proof.
  apply (sanitize_filename_length (string_of_list_ascii (repeat "a"%char 201))).
  apply Nat.ltb_lt. vm_compute. reflexivity.
Defined.

Lemma get_library_member_witness :
  get_library [] (Some "YouTube") [Typed 1]
  = RaisesValueError "No libraries found on Plex server".
Proof. exact (proj2 (get_library_member [] (Some "YouTube") [Typed 1]) eq_refl). Defined.

Lemma dry_run_previews_live_witness :
  Forall edits_accepted Demo.library
  ∧ Forall2 previews
      (fst (fst (process_items Iso.fromisoformat Demo.service true Demo.library
                   (initial ∅))))
      (fst (fst (process_items Iso.fromisoformat Demo.service false Demo.library
                   (initial ∅)))).
Proof.
  assert (Hacc : Forall edits_accepted Demo.library) by (repeat constructor).
  split; [exact Hacc|].
  exact (proj1 (dry_run_previews_live Iso.fromisoformat Demo.service Demo.library ∅ Hacc)).
Defined.

Lemma cache_only_grows_witness :
  truthy (({[ "dQw4w9WgXcQ" := snippet_metadata ∅ ]} : cache_t) !! "dQw4w9WgXcQ") = true
  ∧ cache (snd (process_items Iso.fromisoformat Demo.service false Demo.library
                  (initial {[ "dQw4w9WgXcQ" := snippet_metadata ∅ ]}))) !! "dQw4w9WgXcQ"
    = Some (snippet_metadata ∅).
Proof.
  assert (H : truthy (({[ "dQw4w9WgXcQ" := snippet_metadata ∅ ]} : cache_t)
                        !! "dQw4w9WgXcQ") = true) by (vm_compute; reflexivity).
  split; [exact H|].
  exact (proj1 (cache_only_grows Iso.fromisoformat Demo.service false Demo.library
                  (initial {[ "dQw4w9WgXcQ" := snippet_metadata ∅ ]}) "dQw4w9WgXcQ") H).
Defined.

Lemma well_formed_cache_no_item_error_witness :
  well_formed {[ "dQw4w9WgXcQ" := snippet_metadata ∅ ]}
  ∧ Forall (λ o, o ≠ ItemError)
      (fst (fst (process_items Iso.fromisoformat Demo.service false Demo.library
                   (initial {[ "dQw4w9WgXcQ" := snippet_metadata ∅ ]})))).
Proof.
  assert (H : well_formed {[ "dQw4w9WgXcQ" := snippet_metadata ∅ ]}).
  { intros video_id md Hmd _. apply lookup_singleton_Some in Hmd as [_ <-].
    split; eexists; vm_compute; reflexivity. }
  split; [exact H|].
  exact (proj1 (well_formed_cache_no_item_error Iso.fromisoformat Demo.service false
                  Demo.library _ H)).
Defined.

Lemma items_are_kept_witness :
  Forall2 kept Demo.library
    (snd (fst (process_items Iso.fromisoformat Demo.service false Demo.library
                 (initial ∅)))).
Proof.
  pose proof (items_are_kept Iso.fromisoformat Demo.service false Demo.library
                (initial ∅)) as H.
  destruct (process_items Iso.fromisoformat Demo.service false Demo.library (initial ∅))
    as [[os items'] st].
  exact (proj1 H).
Defined.

Lemma final_cache_depends_on_files_witness :
  media <$> [Demo.video; Demo.stubborn] = media <$> [renamed_video; Demo.stubborn]
  ∧ cache (snd (process_items Iso.fromisoformat Demo.service true
                  [Demo.video; Demo.stubborn] (initial ∅)))
    = cache (snd (process_items Iso.fromisoformat Demo.service false
                    [renamed_video; Demo.stubborn] (initial ∅))).
Proof.
  assert (H : media <$> [Demo.video; Demo.stubborn]
              = media <$> [renamed_video; Demo.stubborn]) by reflexivity.
  split; [exact H|].
  exact (final_cache_depends_on_files Iso.fromisoformat Demo.service true false _ _
           (initial ∅) (initial ∅) H eq_refl).
Defined.
